(** * gfdrr_det.serializers: order validation and bounding-box grid snapping

    A shallow embedding of the pure part of [gfdrr_det/serializers.py]
    (the grid generator, the nearest-value snap, the coordinate
    enlargement, the bounding-box snap, the order-intake validation
    of [OrderSerializer.to_internal_value], the template items of
    [OrderSerializer.create] and the file hash of [get_download_url])
    together with the properties the specification states about them and
    further properties read off the code.

    Numbers.  The functions are embedded twice.  On exact rationals [Q]
    ([==], [<], [<=] the numeric comparisons, [float(i)] the identity)
    they are the code as it runs on Python [int]s and on floats whose
    sums and differences do not round: integers and multiples of a power
    of two of bounded size, as on a grid of resolution 1 or 0.5.  In the
    module [Float64] they are the code on IEEE binary64 numbers, where
    each [+] and [-] rounds; statements about grids of other resolutions
    (2.4, 0.01) are made there.

    Control.  A call either returns, raises, or is still running when the
    iteration budget ends; that is the type [outcome].  The only unbounded
    loop is the [for i in count(...)] of [generate_1d_grid]. *)

From Stdlib Require Import List String Ascii Bool Arith ZArith QArith Qabs Qround.
From Stdlib Require Import DecimalString.
From Corelib Require Import PrimFloat.
From Stdlib Require Import Lia Lqa Sorted.
Import ListNotations.

Open Scope Q_scope.

(** ** Exceptions and outcomes *)

(** Arguments handed to [str.format] by the raising code; the rendering
    of the message itself is not modelled. *)
Inductive fmt_arg : Type :=
| ArgNum (q : Q)
| ArgFloat (f : float)
| ArgStr (s : string).

Inductive exn : Type :=
| ValidationError (field : string) (template : string) (args : list fmt_arg)
| RuntimeError (template : string) (args : list fmt_arg)
| ValueError
| IndexError.

Inductive outcome (A : Type) : Type :=
| Ret (a : A)
| Raise (e : exn)
| OutOfFuel.

Arguments Ret {A} a.
Arguments Raise {A} e.
Arguments OutOfFuel {A}.

Definition bind {A B : Type} (m : outcome A) (k : A -> outcome B) : outcome B :=
  match m with
  | Ret a => k a
  | Raise e => Raise e
  | OutOfFuel => OutOfFuel
  end.

Notation "x <- m ;; k" := (bind m (fun x => k))
  (at level 61, m at next level, right associativity).

(** [try: body except IndexError: handler]. No other exception is caught. *)
Definition except_IndexError {A : Type} (body : outcome A) (handler : A) : outcome A :=
  match body with
  | Raise IndexError => Ret handler
  | other => other
  end.

(** [try: body except ValueError: raise e]. *)
Definition except_ValueError {A : Type} (body : outcome A) (e : exn) : outcome A :=
  match body with
  | Raise ValueError => Raise e
  | other => other
  end.

(** ** Python list primitives on numbers *)

Definition Qlt_bool (x y : Q) : bool := negb (Qle_bool y x).

(** [max(grid)]: the first maximal item; [ValueError] on an empty list. *)
Definition py_max (grid : list Q) : outcome Q :=
  match grid with
  | [] => Raise ValueError
  | x :: rest => Ret (fold_left (fun m y => if Qlt_bool m y then y else m) rest x)
  end.

(** [x in grid], by [==]. *)
Definition py_in (x : Q) (grid : list Q) : bool := existsb (Qeq_bool x) grid.

(** [grid.index(x)]: position of the first item equal to [x]. *)
Fixpoint py_index (x : Q) (grid : list Q) : outcome Z :=
  match grid with
  | [] => Raise ValueError
  | y :: rest =>
      if Qeq_bool y x then Ret 0%Z
      else i <- py_index x rest ;; Ret (i + 1)%Z
  end.

(** [grid[i]]: a negative [i] counts from the end; out of range raises
    [IndexError]. *)
Definition py_getitem (grid : list Q) (i : Z) : outcome Q :=
  let n := Z.of_nat (List.length grid) in
  let j := if (i <? 0)%Z then (i + n)%Z else i in
  if ((j <? 0) || (n <=? j))%Z then Raise IndexError
  else match nth_error grid (Z.to_nat j) with
       | Some x => Ret x
       | None => Raise IndexError
       end.

(** ** generate_1d_grid *)

(** The body of [for i in count(start=start, step=resolution)]: [i] is the
    current counter, [grid] the list built so far; [count] produces the
    next counter by adding the step to the current one. *)
Fixpoint count_loop (fuel : nat) (i end_ resolution : Q) (grid : list Q)
  : outcome (list Q) :=
  match fuel with
  | O => OutOfFuel
  | S fuel' =>
      if Qlt_bool end_ i then Ret grid
      else count_loop fuel' (i + resolution) end_ resolution (grid ++ [i])
  end.

Definition zero_resolution : exn :=
  RuntimeError "grid resolution cannot be zero" [].

Definition generate_1d_grid (fuel : nat) (start end_ resolution : Q)
  : outcome (list Q) :=
  if Qeq_bool resolution 0 then Raise zero_resolution
  else count_loop fuel start end_ resolution [].

(** ** snap_value *)

(** The [for item in grid] loop with its [break]; the state is
    [(result, best_delta)], and [result] is [None] until an item beats the
    initial [best_delta]. *)
Fixpoint snap_loop (value : Q) (grid : list Q) (result : option Q) (best_delta : Q)
  : option Q :=
  match grid with
  | [] => result
  | item :: rest =>
      let delta := Qabs (value - item) in
      let st := if Qlt_bool delta best_delta then (Some item, delta)
                else (result, best_delta) in
      if Qeq_bool delta 0 then fst st
      else snap_loop value rest (fst st) (snd st)
  end.

Definition could_not_snap (value : Q) : exn :=
  RuntimeError "Could not snap value {}" [ArgNum value].

Definition snap_value (value : Q) (grid : list Q) : outcome Q :=
  m <- py_max grid ;;
  let best_delta := m + 1 in
  match snap_loop value grid None best_delta with
  | None => Raise (could_not_snap value)
  | Some result =>
      if py_in result grid then Ret result else Raise (could_not_snap value)
  end.

(** ** enlarge_coordinate *)

Definition enlarge_coordinate (value : Q) (grid : list Q) (floor : bool)
  : outcome Q :=
  snapped <- snap_value value grid ;;
  if floor then
    next_ <- except_IndexError
               (i <- py_index snapped grid ;; py_getitem grid (i - 1)%Z)
               snapped ;;
    Ret (if Qle_bool snapped value then snapped else next_)
  else
    next_ <- except_IndexError
               (i <- py_index snapped grid ;; py_getitem grid (i + 1)%Z)
               snapped ;;
    Ret (if Qle_bool value snapped then snapped else next_).

(** ** snap_bbox_to_grid *)

Record BBox : Type := mkBBox { x0 : Q; y0 : Q; x1 : Q; y1 : Q }.

Definition snap_bbox_to_grid (fuel : nat) (resolution : Q) (b : BBox)
  : outcome BBox :=
  x_grid <- generate_1d_grid fuel (-180) 180 resolution ;;
  y_grid <- generate_1d_grid fuel (-90) 90 resolution ;;
  nx0 <- enlarge_coordinate (x0 b) x_grid true ;;
  ny0 <- enlarge_coordinate (y0 b) y_grid true ;;
  nx1 <- enlarge_coordinate (x1 b) x_grid false ;;
  ny1 <- enlarge_coordinate (y1 b) y_grid false ;;
  Ret (mkBBox nx0 ny0 nx1 ny1).

(** ** The same functions on binary64 floats

    The functions above compute with exact numbers: they are the code as
    it runs on Python [int]s, whose arithmetic is exact, and on floats as
    long as no addition or subtraction rounds (a grid whose values are
    integers or small multiples of a power of two).  On other floats
    [itertools.count] accumulates the rounding of each [+]; the module
    below is the same code on IEEE binary64 numbers, the kernel's [float],
    with [+], [-], [abs], [<] and [==] those of the hardware. *)

Module Float64.

Definition py_max (grid : list float) : outcome float :=
  match grid with
  | [] => Raise ValueError
  | x :: rest =>
      Ret (fold_left (fun m y => if PrimFloat.ltb m y then y else m) rest x)
  end.

Definition py_in (x : float) (grid : list float) : bool :=
  existsb (PrimFloat.eqb x) grid.

Fixpoint py_index (x : float) (grid : list float) : outcome Z :=
  match grid with
  | [] => Raise ValueError
  | y :: rest =>
      if PrimFloat.eqb y x then Ret 0%Z
      else i <- py_index x rest ;; Ret (i + 1)%Z
  end.

Definition py_getitem (grid : list float) (i : Z) : outcome float :=
  let n := Z.of_nat (List.length grid) in
  let j := if (i <? 0)%Z then (i + n)%Z else i in
  if ((j <? 0) || (n <=? j))%Z then Raise IndexError
  else match nth_error grid (Z.to_nat j) with
       | Some x => Ret x
       | None => Raise IndexError
       end.

Fixpoint count_loop (fuel : nat) (i end_ resolution : float) (grid : list float)
  : outcome (list float) :=
  match fuel with
  | O => OutOfFuel
  | S fuel' =>
      if PrimFloat.ltb end_ i then Ret grid
      else count_loop fuel' (PrimFloat.add i resolution) end_ resolution
             (grid ++ [i])
  end.

Definition generate_1d_grid (fuel : nat) (start end_ resolution : float)
  : outcome (list float) :=
  if PrimFloat.eqb resolution 0%float then Raise zero_resolution
  else count_loop fuel start end_ resolution [].

Fixpoint snap_loop (value : float) (grid : list float) (result : option float)
  (best_delta : float) : option float :=
  match grid with
  | [] => result
  | item :: rest =>
      let delta := PrimFloat.abs (PrimFloat.sub value item) in
      let st := if PrimFloat.ltb delta best_delta then (Some item, delta)
                else (result, best_delta) in
      if PrimFloat.eqb delta 0%float then fst st
      else snap_loop value rest (fst st) (snd st)
  end.

Definition could_not_snap (value : float) : exn :=
  RuntimeError "Could not snap value {}" [ArgFloat value].

Definition snap_value (value : float) (grid : list float) : outcome float :=
  m <- py_max grid ;;
  let best_delta := PrimFloat.add m 1%float in
  match snap_loop value grid None best_delta with
  | None => Raise (could_not_snap value)
  | Some result =>
      if py_in result grid then Ret result else Raise (could_not_snap value)
  end.

Definition enlarge_coordinate (value : float) (grid : list float) (floor : bool)
  : outcome float :=
  snapped <- snap_value value grid ;;
  if floor then
    next_ <- except_IndexError
               (i <- py_index snapped grid ;; py_getitem grid (i - 1)%Z)
               snapped ;;
    Ret (if PrimFloat.leb snapped value then snapped else next_)
  else
    next_ <- except_IndexError
               (i <- py_index snapped grid ;; py_getitem grid (i + 1)%Z)
               snapped ;;
    Ret (if PrimFloat.leb value snapped then snapped else next_).

Record BBox : Type := mkBBox { x0 : float; y0 : float; x1 : float; y1 : float }.

Definition snap_bbox_to_grid (fuel : nat) (resolution : float) (b : BBox)
  : outcome BBox :=
  x_grid <- generate_1d_grid fuel (-180)%float 180%float resolution ;;
  y_grid <- generate_1d_grid fuel (-90)%float 90%float resolution ;;
  nx0 <- enlarge_coordinate (x0 b) x_grid true ;;
  ny0 <- enlarge_coordinate (y0 b) y_grid true ;;
  nx1 <- enlarge_coordinate (x1 b) x_grid false ;;
  ny1 <- enlarge_coordinate (y1 b) y_grid false ;;
  Ret (mkBBox nx0 ny0 nx1 ny1).

End Float64.

(** ** Strings *)

Open Scope string_scope.

Definition is_upper (c : ascii) : bool :=
  let n := nat_of_ascii c in (65 <=? n)%nat && (n <=? 90)%nat.

Definition lower_ascii (c : ascii) : ascii :=
  if is_upper c then ascii_of_nat (nat_of_ascii c + 32) else c.

(** [s.lower()], on the ASCII letters. *)
Fixpoint lower (s : string) : string :=
  match s with
  | EmptyString => EmptyString
  | String c rest => String (lower_ascii c) (lower rest)
  end.

(** [s.split(sep)] for a one-character separator: always at least one
    part, empty parts kept. *)
Fixpoint split (sep : ascii) (s : string) : list string :=
  match s with
  | EmptyString => [EmptyString]
  | String c rest =>
      if Ascii.eqb c sep then EmptyString :: split sep rest
      else match split sep rest with
           | [] => [String c EmptyString]
           | w :: ws => String c w :: ws
           end
  end.

(** [s.partition(sep)[::2]]: the text before and after the first
    separator; the whole string and [""] when there is none. *)
Fixpoint partition (sep : ascii) (s : string) : string * string :=
  match s with
  | EmptyString => (EmptyString, EmptyString)
  | String c rest =>
      if Ascii.eqb c sep then (EmptyString, rest)
      else let (h, t) := partition sep rest in (String c h, t)
  end.

(** [x in xs] for strings. *)
Definition str_in (x : string) (xs : list string) : bool :=
  existsb (String.eqb x) xs.

(** Python truthiness of an optional string: [None] and [""] are false. *)
Definition truthy (s : option string) : bool :=
  match s with
  | None => false
  | Some EmptyString => false
  | Some _ => true
  end.

(** ** Values of the builtin [float] *)

Inductive pyfloat : Type :=
| Finite (q : Q)
| Infinity (negative : bool)
| NaN.

(** [lo <= x <= hi] for a float [x] and integer bounds. *)
Definition in_range (lo hi : Q) (x : pyfloat) : bool :=
  match x with
  | Finite q => Qle_bool lo q && Qle_bool q hi
  | Infinity _ => false
  | NaN => false
  end.

(** ** Configuration *)

(** One entry of [settings.OSEOSERVER_PROCESSING_OPTIONS]. *)
Record ProcessingOption : Type := mkOption {
  name : string;
  choices : list string
}.

(** The settings the serializer reads.  [taxonomy_mapping] is
    [HEV_E["EXPOSURES"]["taxonomy_mappings"]["mapping"]], a dict from
    category type to the dict of its values, kept as the list of its items
    with the keys of the inner dict; [bbox_snap_resolution] is
    [HEV_E["general"].get("bbox_snap_resolution")]; [DatasetType_members]
    is [DatasetType.__members__], the names of the enumeration of
    [gfdrr_det.constants]. *)
Record Settings : Type := mkSettings {
  OSEOSERVER_PROCESSING_OPTIONS : list ProcessingOption;
  taxonomy_mapping : list (string * list string);
  bbox_snap_resolution : option Q;
  DatasetType_members : list string
}.

(** [config.get(key, {})] followed by [.keys()]. *)
Fixpoint mapping_get (config : list (string * list string)) (key : string)
  : list string :=
  match config with
  | [] => []
  | (k, v) :: rest => if String.eqb k key then v else mapping_get rest key
  end.

(** ** Request and validated data *)

(** One element of the incoming [order_items], for requests whose
    fields are of the documented types: a field is [None] when the key is
    absent, and a field that is present is a string ([event_ids] a list of
    strings).  A JSON [null] or a value of another type, on which the
    source raises [AttributeError] or [TypeError], is outside this
    record. *)
Record RequestItem : Type := mkRequestItem {
  item_layer : option string;
  item_format : option string;
  item_bbox : option string;
  item_taxonomic_categories : option string;
  item_event_ids : option (list string)
}.

Record RequestData : Type := mkRequestData {
  data_order_items : option (list RequestItem);
  data_notification_email : option string
}.

(** The dict built for one item; the last two keys are present only when
    the corresponding filter was given. *)
Record OrderItem : Type := mkOrderItem {
  layer : string;
  format : string;
  bbox : option BBox;
  taxonomic_categories : option (list string);
  event_ids : option (list Z)
}.

Record Validated : Type := mkValidated {
  order_items : list OrderItem;
  notification_email : option string
}.

Definition required (field : string) : exn :=
  ValidationError field "this field is required" [].

Definition invalid_numeric : exn :=
  ValidationError "bbox" "Invalid numeric values" [].

Definition invalid_values : exn :=
  ValidationError "bbox" "Invalid values. Expecting x0,y0,x1,y1" [].

Section Validation.

(** The builtins [float] and [int] on strings; [None] is [ValueError]. *)
Variable py_float : string -> option pyfloat.
Variable py_int : string -> option Z.

Variable conf : Settings.

Definition _validate_layer (layer_str : string) : outcome (string * string) :=
  let (collection, layer_name) := partition ":" layer_str in
  if negb (str_in collection (DatasetType_members conf))
  then Raise (ValidationError "layer" "invalid collection" [])
  else Ret (collection, layer_name).

Definition option_name (collection : string) : string :=
  if String.eqb collection "vulnerability" then "vulnerabilityFormat"
  else "format".

Definition _validate_format (format_str collection : string) : outcome unit :=
  let options_conf := OSEOSERVER_PROCESSING_OPTIONS conf in
  match map choices
          (filter (fun i => String.eqb (name i) (option_name collection))
                  options_conf) with
  | [] => Raise IndexError
  | format_choices :: _ =>
      if negb (str_in format_str format_choices)
      then Raise (ValidationError "format" "invalid value" [])
      else Ret tt
  end.

Definition invalid_category (info : string) : exn :=
  ValidationError "taxonomic_categories"
    "Invalid category {!r}. Please provide a value of the form category_type:category_name"
    [ArgStr info].

(** The [for cat_info in ...] loop of [_parse_categories]. *)
Fixpoint parse_categories_loop (tokens categories : list string)
  : outcome (list string) :=
  let config := taxonomy_mapping conf in
  match tokens with
  | [] => Ret categories
  | cat_info :: rest =>
      let info := lower cat_info in
      match split ":" info with
      | [cat_type; cat_value] =>
          if negb (str_in cat_type (map fst config))
          then Raise (ValidationError "taxonomic_categories"
                        "Invalid category type: {}" [ArgStr cat_type])
          else
            let allowed_values := mapping_get config cat_type in
            if negb (str_in cat_value allowed_values)
            then Raise (ValidationError "taxonomic_categories"
                          "Invalid category value: {}" [ArgStr cat_value])
            else parse_categories_loop rest (categories ++ [info])
      | _ => Raise (invalid_category info)
      end
  end.

Definition _parse_categories (taxonomic_categories_str : string)
  : outcome (list string) :=
  parse_categories_loop (split "," taxonomic_categories_str) [].

(** [[int(i) for i in raw_event_ids]] on a list of strings, where the
    only failure of [int] is [ValueError]. *)
Fixpoint ints_of (raw : list string) : outcome (list Z) :=
  match raw with
  | [] => Ret []
  | i :: rest =>
      match py_int i with
      | None => Raise ValueError
      | Some n => ns <- ints_of rest ;; Ret (n :: ns)
      end
  end.

Definition _parse_event_ids (raw_event_ids : list string) : outcome (list Z) :=
  except_ValueError (ints_of raw_event_ids)
    (ValidationError "event_ids" "Invalid values" []).

(** [x0, y0, x1, y1 = (float(i) for i in parts)]: [ValueError] from
    [float] or from unpacking a number of parts other than four. *)
Definition unpack_floats (parts : list string)
  : outcome (pyfloat * pyfloat * pyfloat * pyfloat) :=
  match parts with
  | [a; b; c; d] =>
      match py_float a, py_float b, py_float c, py_float d with
      | Some fa, Some fb, Some fc, Some fd => Ret (fa, fb, fc, fd)
      | _, _, _, _ => Raise ValueError
      end
  | _ => Raise ValueError
  end.

Definition finite_part (x : pyfloat) : Q :=
match x with
| Finite q => q
| _ => 0%Q
end.

(** The range test rejects [nan] and the infinities, so the returned
    coordinates are the finite values read. *)
Definition _parse_bbox (bbox_str : string) : outcome BBox :=
fs <- except_ValueError (unpack_floats (split "," bbox_str)) invalid_numeric ;;
let '(fx0, fy0, fx1, fy1) := fs in
let valid_x := in_range (-180) 180 fx0 && in_range (-180) 180 fx1 in
let valid_y := in_range (-90) 90 fy0 && in_range (-90) 90 fy1 in
if negb (valid_x && valid_y)
then Raise invalid_values
else Ret (mkBBox (finite_part fx0) (finite_part fy0)
                 (finite_part fx1) (finite_part fy1)).

(** Lines 286-296 of [to_internal_value]: the [bbox] of one item. *)
Definition item_bbox_value (fuel : nat) (bbox_str : option string)
  : outcome (option BBox) :=
  if truthy bbox_str then
    match bbox_str with
    | Some s =>
        parsed_bbox <- _parse_bbox s ;;
        match bbox_snap_resolution conf with
        | Some grid_resolution =>
            b <- snap_bbox_to_grid fuel grid_resolution parsed_bbox ;;
            Ret (Some b)
        | None => Ret (Some parsed_bbox)
        end
    | None => Ret None
    end
  else Ret None.

(** Lines 298-311: the dict of one item and its collection filters. *)
Definition item_filters (item : RequestItem) (collection layer_ format_ : string)
  (bbox_ : option BBox) : outcome OrderItem :=
  if String.eqb collection "exposure" then
    match item_taxonomic_categories item with
    | Some cats =>
        cs <- _parse_categories cats ;;
        Ret (mkOrderItem layer_ format_ bbox_ (Some cs) None)
    | None => Ret (mkOrderItem layer_ format_ bbox_ None None)
    end
  else if String.eqb collection "hazard" then
    match item_event_ids item with
    | Some ids =>
        ns <- _parse_event_ids ids ;;
        Ret (mkOrderItem layer_ format_ bbox_ None (Some ns))
    | None => Ret (mkOrderItem layer_ format_ bbox_ None None)
    end
  else Ret (mkOrderItem layer_ format_ bbox_ None None).

(** The body of [for item in requested_items]. *)
Definition order_item_of (fuel : nat) (item : RequestItem) : outcome OrderItem :=
  if negb (truthy (item_layer item)) then Raise (required "layer")
  else
    let layer_ := match item_layer item with Some l => l | None => "" end in
    cl <- _validate_layer layer_ ;;
    let collection := fst cl in
    let format_ :=
      lower (match item_format item with Some f => f | None => "" end) in
    if negb (truthy (Some format_)) then Raise (required "format")
    else
      _ <- _validate_format format_ collection ;;
      bbox_ <- item_bbox_value fuel (item_bbox item) ;;
      item_filters item collection layer_ format_ bbox_.

Fixpoint items_loop (fuel : nat) (requested_items : list RequestItem)
  (acc : list OrderItem) : outcome (list OrderItem) :=
  match requested_items with
  | [] => Ret acc
  | item :: rest =>
      order_item <- order_item_of fuel item ;;
      items_loop fuel rest (acc ++ [order_item])
  end.

Definition to_internal_value (fuel : nat) (data : RequestData)
  : outcome Validated :=
  match data_order_items data with
  | None => Raise (required "order_items")
  | Some [] => Raise (required "order_items")
  | Some requested_items =>
      ois <- items_loop fuel requested_items [] ;;
      Ret (mkValidated ois (data_notification_email data))
  end.

End Validation.

(** ** OrderSerializer.create: the items handed to the request template *)

(** [seq[-1]]: the last item; [IndexError] on an empty list. *)
Definition py_last {A : Type} (l : list A) : outcome A :=
  match rev l with
  | [] => Raise IndexError
  | x :: _ => Ret x
  end.

(** The ["options"] dict of a template item. *)
Record TemplateOptions : Type := mkTemplateOptions {
  options_format : string;
  options_bbox : option BBox;
  options_taxonomic_categories : list string;
  options_event_ids : list Z
}.

(** One element of [template_order_items]. *)
Record TemplateItem : Type := mkTemplateItem {
  id_ : string;
  product_id : string;
  collection : string;
  options : TemplateOptions
}.

(** ["item{}".format(index)]. *)
Definition item_id (index : nat) : string :=
  "item" ++ NilZero.string_of_uint (Nat.to_uint index).

(** The body of [for index, requested_item in enumerate(requested_items)]. *)
Definition template_item (index : nat) (requested_item : OrderItem) : TemplateItem :=
  let (collection_, layer_name) := partition ":" (layer requested_item) in
  let categories :=
    match taxonomic_categories requested_item with
    | Some cs => cs
    | None => []
    end in
  mkTemplateItem
    (item_id index)
    (layer requested_item)
    collection_
    (mkTemplateOptions
       (format requested_item)
       (bbox requested_item)
       (map lower categories)
       (match event_ids requested_item with Some ids => ids | None => [] end)).

Fixpoint enumerate_items (index : nat) (requested_items : list OrderItem)
  (template_order_items : list TemplateItem) : list TemplateItem :=
  match requested_items with
  | [] => template_order_items
  | requested_item :: rest =>
      enumerate_items (S index) rest
        (template_order_items ++ [template_item index requested_item])
  end.

(** Lines 239-256 of [create]: the list rendered into the request
    document.  Rendering the template and submitting the request belong to
    other packages. *)
Definition template_order_items (validated_data : Validated) : list TemplateItem :=
  enumerate_items 0 (order_items validated_data) [].

(** ** OrderItemSerializer.get_download_url *)

(** [[i for i in url.split("/") if i != ""][-1]]. *)
Definition file_hash (url : string) : outcome string :=
  py_last (filter (fun i => negb (String.eqb i "")) (split "/" url)).

(** The fields of an order item the serializer reads. *)
Record OrderItemObject : Type := mkOrderItemObject {
  identifier : string;
  available : bool;
  url : string
}.

Section DownloadUrl.

(** [reverse("retrieve_download", kwargs={"file_hash": h}, request=...)],
    the URL resolver of the web framework. *)
Variable reverse : string -> string.

Definition get_download_url (obj : OrderItemObject) : outcome (option string) :=
  if available obj then
    h <- file_hash (url obj) ;;
    Ret (Some (reverse h))
  else Ret None.

End DownloadUrl.

(** A reader of signed decimal numerals ([-12.5], [3], [+0.25]); it
    stands for the builtin [float] in the worked examples. *)
Definition digit_of (c : ascii) : option Z :=
  let n := nat_of_ascii c in
  if ((48 <=? n) && (n <=? 57))%nat then Some (Z.of_nat (n - 48)) else None.

Fixpoint digits_of (s : string) (acc : Z) (seen : nat) : option (Z * nat * string) :=
  match s with
  | EmptyString => Some (acc, seen, EmptyString)
  | String c rest =>
      match digit_of c with
      | Some d => digits_of rest (10 * acc + d)%Z (S seen)
      | None => Some (acc, seen, s)
      end
  end.

Definition decimal_unsigned (s : string) : option Q :=
  match digits_of s 0%Z 0%nat with
  | Some (ip, n, EmptyString) =>
      if (n =? 0)%nat then None else Some (inject_Z ip)
  | Some (ip, n, String "." frac) =>
      match digits_of frac 0%Z 0%nat with
      | Some (fp, m, EmptyString) =>
          if ((n =? 0) && (m =? 0))%nat then None
          else Some (Qmake (ip * 10 ^ Z.of_nat m + fp) (Z.to_pos (10 ^ Z.of_nat m)))
      | _ => None
      end
  | _ => None
  end%Q.

Definition decimal_float (s : string) : option pyfloat :=
  match s with
  | String "-" rest => option_map (fun q => Finite (- q)) (decimal_unsigned rest)
  | String "+" rest => option_map Finite (decimal_unsigned rest)
  | _ => option_map Finite (decimal_unsigned s)
  end.

Definition decimal_int (s : string) : option Z :=
  match s with
  | String "-" rest =>
      match digits_of rest 0%Z 0%nat with
      | Some (n, S _, EmptyString) => Some (- n)%Z
      | _ => None
      end
  | _ =>
      match digits_of s 0%Z 0%nat with
      | Some (n, S _, EmptyString) => Some n
      | _ => None
      end
  end.


(** ** Specification-side notions *)

Open Scope Q_scope.
Open Scope list_scope.

(** The counter of [count(start, step)] after [n] additions of the step. *)
Fixpoint iter_add (i step : Q) (n : nat) : Q :=
  match n with
  | O => i
  | S m => iter_add (i + step) step m
  end.

(** The first [n] values produced by [count(start, step)]. *)
Fixpoint arith (i step : Q) (n : nat) : list Q :=
  match n with
  | O => []
  | S m => i :: arith (i + step) step m
  end.

(** The number [n / 2^k]: an integer for [k = 0], otherwise a multiple
    of a negative power of two.  Sums and differences of such numbers
    with numerators of magnitude up to [2^53] are exact in binary64. *)
Definition dyadic (k : nat) (n : Z) : Q := inject_Z n / inject_Z (2 ^ Z.of_nat k).

(** Number of whole steps of size [r] that fit between [a] and [b]. *)
Definition steps_between (a b r : Q) : nat := Z.to_nat (Qfloor ((b - a) / r)).

Definition Qof_nat (n : nat) : Q := inject_Z (Z.of_nat n).

(** Some ASCII capital occurs in [s]. *)
Fixpoint has_upper (s : string) : bool :=
  match s with
  | EmptyString => false
  | String c rest => is_upper c || has_upper rest
  end.

(** The request item with its format and category tokens lowercased. *)
Definition lower_item (item : RequestItem) : RequestItem :=
  mkRequestItem (item_layer item)
                (option_map lower (item_format item))
                (item_bbox item)
                (option_map lower (item_taxonomic_categories item))
                (item_event_ids item).

Definition lower_data (data : RequestData) : RequestData :=
  mkRequestData (option_map (map lower_item) (data_order_items data))
                (data_notification_email data).

(** The string splits at its commas into exactly four parts that the
    builtin [float] reads as the four given values. *)
Definition four_floats (py_float : string -> option pyfloat) (s : string)
  (fx0 fy0 fx1 fy1 : pyfloat) : Prop :=
  exists a b c d,
    split "," s = [a; b; c; d]
    /\ py_float a = Some fx0 /\ py_float b = Some fy0
    /\ py_float c = Some fx1 /\ py_float d = Some fy1.

(** The longitude and latitude ranges of a bounding box. *)
Definition in_bounds (fx0 fy0 fx1 fy1 : pyfloat) : Prop :=
  exists qx0 qy0 qx1 qy1,
    fx0 = Finite qx0 /\ fy0 = Finite qy0 /\ fx1 = Finite qx1 /\ fy1 = Finite qy1
    /\ (-180 <= qx0 /\ qx0 <= 180) /\ (-180 <= qx1 /\ qx1 <= 180)
    /\ (-90 <= qy0 /\ qy0 <= 90) /\ (-90 <= qy1 /\ qy1 <= 90).

(** [whitelist] is the [choices] of the first configured option whose
    name is [key]. *)
Definition configured_whitelist (conf : Settings) (key : string)
  (whitelist : list string) : Prop :=
  exists pre o post,
    OSEOSERVER_PROCESSING_OPTIONS conf = pre ++ o :: post
    /\ name o = key
    /\ (forall p, In p pre -> name p <> key)
    /\ choices o = whitelist.

(** A stored category token has the form [type:value] with the type a
    key of the configured mapping and the value one of its values. *)
Definition category_matches (conf : Settings) (c : string) : Prop :=
  exists cat_type cat_value,
    split ":" c = [cat_type; cat_value]
    /\ In cat_type (map fst (taxonomy_mapping conf))
    /\ In cat_value (mapping_get (taxonomy_mapping conf) cat_type).

(** What a validated item holds in its format and category fields: the
    lowercased request tokens, which are the tokens that were checked
    against the configuration. *)
Definition stored_lowercase (conf : Settings) (item : RequestItem) (oi : OrderItem)
  : Prop :=
  format oi = lower (match item_format item with Some f => f | None => "" end)
  /\ has_upper (format oi) = false
  /\ (exists collection layer_name,
         _validate_layer conf (layer oi) = Ret (collection, layer_name)
         /\ _validate_format conf (format oi) collection = Ret tt)
  /\ forall cs,
      taxonomic_categories oi = Some cs ->
      (exists s, item_taxonomic_categories item = Some s
                 /\ cs = map lower (split "," s))
      /\ Forall (fun c => has_upper c = false /\ category_matches conf c) cs.

(** The four edges of [b'] enclose [b]. *)
Definition encloses (b' b : BBox) : Prop :=
  x0 b' <= x0 b /\ y0 b' <= y0 b /\ x1 b <= x1 b' /\ y1 b <= y1 b'.

(** The edges of [b'] are values of the two grids. *)
Definition on_grids (b' : BBox) (x_grid y_grid : list Q) : Prop :=
  In (x0 b') x_grid /\ In (x1 b') x_grid /\ In (y0 b') y_grid /\ In (y1 b') y_grid.

(** The longitude and latitude ranges of a parsed box. *)
Definition in_world (b : BBox) : Prop :=
  (-180 <= x0 b /\ x0 b <= 180) /\ (-180 <= x1 b /\ x1 b <= 180)
  /\ (-90 <= y0 b /\ y0 b <= 90) /\ (-90 <= y1 b /\ y1 b <= 90).

(** The character [c] occurs in [s]. *)
Fixpoint has_char (c : ascii) (s : string) : bool :=
  match s with
  | EmptyString => false
  | String d rest => Ascii.eqb d c || has_char c rest
  end.


(** What [create] hands to the template for one validated item. *)
Definition rendered_from (conf : Settings) (oi : OrderItem) (ti : TemplateItem) : Prop :=
  product_id ti = layer oi
  /\ In (collection ti) (DatasetType_members conf)
  /\ options_format (options ti) = format oi
  /\ options_bbox (options ti) = bbox oi
  /\ options_taxonomic_categories (options ti)
     = match taxonomic_categories oi with Some cs => cs | None => [] end
  /\ options_event_ids (options ti)
     = match event_ids oi with Some ids => ids | None => [] end.

(** Every character of [s] is [c]. *)
Fixpoint only_char (c : ascii) (s : string) : bool :=
  match s with
  | EmptyString => true
  | String d rest => Ascii.eqb d c && only_char c rest
  end.

(** The request item with other category and event-id filters. *)
Definition with_filters (item : RequestItem) (cats : option string)
  (ids : option (list string)) : RequestItem :=
  mkRequestItem (item_layer item) (item_format item) (item_bbox item) cats ids.

(** Python's float literal [n/10] for an integer [n]: the binary64
    number nearest to it, which the correctly rounded division gives. *)
Definition tenths (n : float) : float := PrimFloat.div n 10%float.

(** ** Sample configuration and requests *)

Definition sample_conf (resolution : option Q) : Settings :=
  mkSettings
    [mkOption "format" ["geotiff"; "shapefile"];
     mkOption "vulnerabilityFormat" ["csv"]]
    [("structural", ["concrete"; "wood"])]
    resolution
    ["exposure"; "hazard"; "vulnerability"].

Definition sample_item (bbox_str : option string) : RequestItem :=
  mkRequestItem (Some "exposure:res1") (Some "GeoTIFF") bbox_str
                (Some "Structural:Concrete,structural:WOOD") None.

Definition sample_bbox : BBox := mkBBox (103 # 10) (207 # 10) (151 # 10) (252 # 10).

(** * Properties *)

(** ** Comparisons *)

Lemma Qlt_bool_iff (x y : Q) : Qlt_bool x y = true <-> x < y.
Proof.
  unfold Qlt_bool. rewrite negb_true_iff.
  split; intro H.
  - apply Qnot_le_lt. intro Hle. apply Qle_bool_iff in Hle. congruence.
  - destruct (Qle_bool y x) eqn:E; [|reflexivity].
    apply Qle_bool_iff in E. lra.
Qed.

Lemma Qlt_bool_false (x y : Q) : Qlt_bool x y = false <-> y <= x.
Proof.
  unfold Qlt_bool. rewrite negb_false_iff. apply Qle_bool_iff.
Qed.

Lemma Qle_bool_false (x y : Q) : Qle_bool x y = false <-> y < x.
Proof.
  rewrite <- Qlt_bool_iff. unfold Qlt_bool.
  destruct (Qle_bool x y); simpl; intuition congruence.
Qed.

Lemma Qeq_bool_false (x y : Q) : Qeq_bool x y = false <-> ~ x == y.
Proof.
  split; intro H.
  - intro E. apply Qeq_bool_iff in E. congruence.
  - destruct (Qeq_bool x y) eqn:E; [|reflexivity].
    apply Qeq_bool_iff in E. contradiction.
Qed.

(** ** The grid generator *)

Lemma iter_add_S (i r : Q) (n : nat) : iter_add i r (S n) == iter_add i r n + r.
Proof.
  revert i. induction n as [|n IH]; intro i; simpl.
  - reflexivity.
  - apply (IH (i + r)).
Qed.

Lemma iter_add_closed (i r : Q) (n : nat) : iter_add i r n == i + Qof_nat n * r.
Proof.
  induction n as [|n IH].
  - simpl. unfold Qof_nat. simpl. ring.
  - rewrite iter_add_S, IH. unfold Qof_nat.
    rewrite Nat2Z.inj_succ. unfold Z.succ. rewrite inject_Z_plus. ring.
Qed.

Lemma arith_length (i r : Q) (n : nat) : List.length (arith i r n) = n.
Proof.
  revert i. induction n as [|n IH]; intro i; simpl; [reflexivity|].
  now rewrite IH.
Qed.

Lemma arith_nth (i r : Q) (n k : nat) :
  (k < n)%nat -> nth k (arith i r n) 0 = iter_add i r k.
Proof.
  revert i k. induction n as [|n IH]; intros i k Hk; [lia|].
  destruct k as [|k]; simpl; [reflexivity|].
  apply IH. lia.
Qed.

Lemma arith_snoc (i r : Q) (n : nat) :
  arith i r (S n) = arith i r n ++ [iter_add i r n].
Proof.
  revert i. induction n as [|n IH]; intro i; [reflexivity|].
  change (arith i r (S (S n))) with (i :: arith (i + r) r (S n)).
  rewrite IH. reflexivity.
Qed.

(** The loop appends exactly the counters that do not exceed [end_]. *)
Lemma count_loop_arith (end_ r : Q) (n : nat) :
  forall (i : Q) (acc : list Q) (fuel : nat),
    (forall k, (k < n)%nat -> iter_add i r k <= end_) ->
    end_ < iter_add i r n ->
    (n < fuel)%nat ->
    count_loop fuel i end_ r acc = Ret (acc ++ arith i r n).
Proof.
  induction n as [|n IH]; intros i acc fuel Hle Hgt Hfuel.
  - destruct fuel as [|fuel]; [lia|]. simpl in *.
    apply Qlt_bool_iff in Hgt. rewrite Hgt. now rewrite app_nil_r.
  - destruct fuel as [|fuel]; [lia|]. simpl.
    assert (Hi : Qlt_bool end_ i = false).
    { apply Qlt_bool_false. apply (Hle 0%nat). lia. }
    rewrite Hi. rewrite (IH (i + r) (acc ++ [i]) fuel).
    + now rewrite <- app_assoc.
    + intros k Hk. apply (Hle (S k)). lia.
    + exact Hgt.
    + lia.
Qed.

Lemma count_loop_diverges (end_ r : Q) :
  r < 0 -> forall (fuel : nat) (i : Q) (acc : list Q),
    i <= end_ -> count_loop fuel i end_ r acc = OutOfFuel.
Proof.
  intros Hr. induction fuel as [|fuel IH]; intros i acc Hi; [reflexivity|].
  simpl. assert (H : Qlt_bool end_ i = false) by now apply Qlt_bool_false.
  rewrite H. apply IH. lra.
Qed.

Lemma iter_add_mono (i r : Q) (j k : nat) :
  0 < r -> (j < k)%nat -> iter_add i r j < iter_add i r k.
Proof.
  intros Hr Hjk. rewrite !iter_add_closed. unfold Qof_nat.
  assert (H : inject_Z (Z.of_nat j) < inject_Z (Z.of_nat k)).
  { rewrite <- Zlt_Qlt. lia. }
  nra.
Qed.

Lemma arith_sorted (i r : Q) (n : nat) :
  0 < r -> StronglySorted Qlt (arith i r n).
Proof.
  intro Hr. revert i. induction n as [|n IH]; intro i; simpl.
  - constructor.
  - constructor; [apply IH|].
    apply Forall_forall. intros x Hx.
    destruct (In_nth _ _ 0 Hx) as [k [Hk Hnth]].
    rewrite arith_length in Hk. rewrite arith_nth in Hnth by exact Hk.
    subst x. rewrite iter_add_closed. unfold Qof_nat.
    assert (0 <= inject_Z (Z.of_nat k)).
    { change 0 with (inject_Z 0). rewrite <- Zle_Qle. lia. }
    nra.
Qed.

Lemma generate_1d_grid_arith (start end_ r : Q) (n fuel : nat) :
  0 < r ->
  iter_add start r n <= end_ ->
  end_ < iter_add start r (S n) ->
  (S n < fuel)%nat ->
  generate_1d_grid fuel start end_ r = Ret (arith start r (S n)).
Proof.
  intros Hr Hle Hgt Hfuel. unfold generate_1d_grid.
  assert (Hz : Qeq_bool r 0 = false).
  { apply Qeq_bool_false. lra. }
  rewrite Hz.
  apply (count_loop_arith end_ r (S n) start [] fuel); try assumption.
  intros k Hk.
  destruct (Nat.eq_dec k n) as [->|Hne]; [exact Hle|].
  apply Qlt_le_weak. eapply Qlt_le_trans; [|exact Hle].
  apply iter_add_mono; [exact Hr | lia].
Qed.

Lemma steps_between_bounds (a b r : Q) :
  a <= b -> 0 < r ->
  a + Qof_nat (steps_between a b r) * r <= b
  /\ b < a + Qof_nat (S (steps_between a b r)) * r.
Proof.
  intros Hab Hr. unfold steps_between, Qof_nat.
  set (q := (b - a) / r).
  assert (Hq : q * r == b - a).
  { unfold q. field. lra. }
  assert (Hq0 : 0 <= q).
  { unfold q. apply Qle_shift_div_l; lra. }
  assert (Hf0 : (0 <= Qfloor q)%Z).
  { change 0%Z with (Qfloor 0). apply Qfloor_resp_le. exact Hq0. }
  rewrite Nat2Z.inj_succ, Z2Nat.id by exact Hf0.
  pose proof (Qfloor_le q) as H1.
  pose proof (Qlt_floor q) as H2.
  unfold Z.succ. rewrite inject_Z_plus in *.
  split; nra.
Qed.

(** ** Python list primitives *)

Lemma fold_max_spec (rest : list Q) :
  forall x : Q,
    let m := fold_left (fun m y => if Qlt_bool m y then y else m) rest x in
    (m = x \/ In m rest) /\ x <= m /\ forall y, In y rest -> y <= m.
Proof.
  induction rest as [|z rest IH]; intro x; simpl.
  - repeat split; [now left | lra | tauto].
  - destruct (Qlt_bool x z) eqn:E.
    + apply Qlt_bool_iff in E.
      destruct (IH z) as [Hin [Hle Hall]]. repeat split.
      * right. destruct Hin as [->|Hin]; [now left | now right].
      * lra.
      * intros y [<-|Hy]; [exact Hle | now apply Hall].
    + apply Qlt_bool_false in E.
      destruct (IH x) as [Hin [Hle Hall]]. repeat split.
      * destruct Hin as [Hin|Hin]; [now left | right; now right].
      * exact Hle.
      * intros y [<-|Hy]; [lra | now apply Hall].
Qed.

Lemma py_max_spec (grid : list Q) (m : Q) :
  py_max grid = Ret m -> In m grid /\ forall x, In x grid -> x <= m.
Proof.
  destruct grid as [|x rest]; simpl; [discriminate|].
  intro H. injection H as <-.
  destruct (fold_max_spec rest x) as [Hin [Hle Hall]].
  split.
  - destruct Hin as [->|Hin]; [now left | now right].
  - intros y [<-|Hy]; [exact Hle | now apply Hall].
Qed.

Lemma py_max_nonempty (grid : list Q) :
  grid <> [] -> exists m, py_max grid = Ret m.
Proof.
  destruct grid as [|x rest]; [congruence|]. intros _. simpl. eauto.
Qed.

Lemma py_in_In (x : Q) (grid : list Q) : In x grid -> py_in x grid = true.
Proof.
  intro H. unfold py_in. apply existsb_exists. exists x. split; [exact H|].
  apply Qeq_bool_iff. reflexivity.
Qed.

Lemma sorted_nth_lt (grid : list Q) :
  StronglySorted Qlt grid ->
  forall i j, (i < j)%nat -> (j < List.length grid)%nat ->
              nth i grid 0 < nth j grid 0.
Proof.
  induction 1 as [|y rest Hs IH Hall]; intros i j Hij Hj; simpl in Hj; [lia|].
  destruct j as [|j]; [lia|]. destruct i as [|i]; simpl.
  - rewrite Forall_forall in Hall. apply Hall. apply nth_In. lia.
  - apply IH; lia.
Qed.

Lemma py_index_sorted (grid : list Q) :
  StronglySorted Qlt grid ->
  forall i, (i < List.length grid)%nat ->
            py_index (nth i grid 0) grid = Ret (Z.of_nat i).
Proof.
  induction 1 as [|y rest Hs IH Hall]; intros i Hi; simpl in Hi; [lia|].
  destruct i as [|i]; simpl.
  - assert (E : Qeq_bool y y = true) by (apply Qeq_bool_iff; reflexivity).
    now rewrite E.
  - assert (Hlt : y < nth i rest 0).
    { rewrite Forall_forall in Hall. apply Hall. apply nth_In. lia. }
    assert (E : Qeq_bool y (nth i rest 0) = false).
    { apply Qeq_bool_false. lra. }
    rewrite E, IH by lia. simpl. f_equal. lia.
Qed.

Lemma py_getitem_nth (grid : list Q) (i : nat) :
  (i < List.length grid)%nat ->
  py_getitem grid (Z.of_nat i) = Ret (nth i grid 0).
Proof.
  intro Hi. unfold py_getitem.
  assert (E1 : (Z.of_nat i <? 0)%Z = false) by (apply Z.ltb_ge; lia).
  rewrite E1, E1.
  assert (E2 : (Z.of_nat (List.length grid) <=? Z.of_nat i)%Z = false)
    by (apply Z.leb_gt; lia).
  rewrite E2. simpl. rewrite Nat2Z.id.
  rewrite (nth_error_nth' grid 0 Hi). reflexivity.
Qed.


(** [grid[-1]] is the last item: a negative index never raises on a
    non-empty list. *)
Lemma py_getitem_minus_one (grid : list Q) :
  grid <> [] -> py_getitem grid (-1) = Ret (last grid 0).
Proof.
  intro Hne. unfold py_getitem.
  assert (Hlen : (0 < List.length grid)%nat).
  { destruct grid; [congruence | simpl; lia]. }
  change (-1 <? 0)%Z with true. cbv iota.
  assert (E1 : (-1 + Z.of_nat (List.length grid) <? 0)%Z = false)
    by (apply Z.ltb_ge; lia).
  assert (E2 : (Z.of_nat (List.length grid) <=? -1 + Z.of_nat (List.length grid))%Z = false)
    by (apply Z.leb_gt; lia).
  rewrite E1, E2. cbn [orb].
  replace (Z.to_nat (-1 + Z.of_nat (List.length grid)))
    with (List.length grid - 1)%nat by lia.
  rewrite (nth_error_nth' grid 0) by lia.
  f_equal. destruct grid as [|x rest]; [congruence|].
  clear. revert x. induction rest as [|y rest IH]; intro x; [reflexivity|].
  specialize (IH y). simpl in *. rewrite Nat.sub_0_r in IH.
  destruct rest; [reflexivity|]. exact IH.
Qed.

(** ** The nearest-value scan *)

Lemma Qabs_diff_le (v a b : Q) :
  v <= a -> a <= b -> Qabs (v - a) <= Qabs (v - b).
Proof.
  intros H1 H2.
  rewrite (Qabs_neg (v - a)) by lra. rewrite (Qabs_neg (v - b)) by lra. lra.
Qed.

Lemma Qabs_zero_iff (x : Q) : Qabs x == 0 <-> x == 0.
Proof.
  split; intro H.
  - destruct (Qlt_le_dec x 0) as [Hl|Hl].
    + rewrite Qabs_neg in H by lra. lra.
    + rewrite Qabs_pos in H by lra. exact H.
  - rewrite H. reflexivity.
Qed.

Lemma snap_loop_cons (value item : Q) (rest : list Q) (result : option Q) (best : Q) :
  snap_loop value (item :: rest) result best =
  if Qeq_bool (Qabs (value - item)) 0
  then (if Qlt_bool (Qabs (value - item)) best then Some item else result)
  else if Qlt_bool (Qabs (value - item)) best
       then snap_loop value rest (Some item) (Qabs (value - item))
       else snap_loop value rest result best.
Proof.
  cbn [snap_loop].
  destruct (Qlt_bool (Qabs (value - item)) best); reflexivity.
Qed.

(** What the scan leaves in [result]: either nothing beat [best_delta],
    or the earliest item of least distance. *)
Lemma snap_loop_spec (value : Q) (grid : list Q) :
  forall (result : option Q) (best : Q),
    (snap_loop value grid result best = result
     /\ forall x, In x grid -> best <= Qabs (value - x))
    \/ (exists item l1 l2,
           snap_loop value grid result best = Some item
           /\ grid = l1 ++ item :: l2
           /\ Qabs (value - item) < best
           /\ (forall x, In x grid -> Qabs (value - item) <= Qabs (value - x))
           /\ (forall x, In x l1 -> Qabs (value - item) < Qabs (value - x))).
Proof.
  induction grid as [|item rest IH]; intros result best.
  - left. split; [reflexivity | intros x []].
  - rewrite snap_loop_cons. set (delta := Qabs (value - item)).
    assert (Hnn : forall x, 0 <= Qabs (value - x)) by (intro; apply Qabs_nonneg).
    destruct (Qlt_bool delta best) eqn:Elt.
    + apply Qlt_bool_iff in Elt.
      destruct (Qeq_bool delta 0) eqn:Ez.
      * apply Qeq_bool_iff in Ez. right. exists item, [], rest.
        repeat split; try assumption; try reflexivity.
        -- intros x _. fold delta. rewrite Ez. apply Hnn.
        -- intros x [].
      * destruct (IH (Some item) delta) as [[Hr Hall]|(it & l1 & l2 & Hr & Hg & Hlt & Hmin & Hfirst)].
        -- right. exists item, [], rest.
           repeat split; try assumption; try reflexivity.
           ++ intros x [<-|Hx]; [fold delta; lra | now apply Hall].
           ++ intros x [].
        -- right. exists it, (item :: l1), l2. subst rest.
           repeat split; try assumption; try reflexivity.
           ++ lra.
           ++ intros x [<-|Hx]; [fold delta; lra | now apply Hmin].
           ++ intros x [<-|Hx]; [exact Hlt | now apply Hfirst].
    + apply Qlt_bool_false in Elt.
      destruct (Qeq_bool delta 0) eqn:Ez.
      * apply Qeq_bool_iff in Ez. left. split; [reflexivity|].
        intros x _. specialize (Hnn x). lra.
      * destruct (IH result best) as [[Hr Hall]|(it & l1 & l2 & Hr & Hg & Hlt & Hmin & Hfirst)].
        -- left. split; [exact Hr|].
           intros x [<-|Hx]; [exact Elt | now apply Hall].
        -- right. exists it, (item :: l1), l2. subst rest.
           repeat split; try assumption; try reflexivity.
           ++ intros x [<-|Hx]; [fold delta; lra | now apply Hmin].
           ++ intros x [<-|Hx]; [fold delta; lra | now apply Hfirst].
Qed.

(** The scan never looks past an item at distance zero. *)
Lemma snap_loop_break (value item : Q) (l1 l2 : list Q) :
  Qabs (value - item) == 0 ->
  forall (result : option Q) (best : Q),
    snap_loop value (l1 ++ item :: l2) result best
    = snap_loop value (l1 ++ [item]) result best.
Proof.
  intro Hz. induction l1 as [|y l1 IH]; intros result best;
    cbn [app]; rewrite !snap_loop_cons.
  - apply Qeq_bool_iff in Hz. now rewrite Hz.
  - destruct (Qeq_bool (Qabs (value - y)) 0); [reflexivity|].
    destruct (Qlt_bool (Qabs (value - y)) best); apply IH.
Qed.

(** When [snap_value] returns, it returns the earliest nearest item. *)
Lemma snap_value_sound (value : Q) (grid : list Q) (s : Q) :
  snap_value value grid = Ret s ->
  exists l1 l2,
    grid = l1 ++ s :: l2
    /\ (forall x, In x grid -> Qabs (value - s) <= Qabs (value - x))
    /\ (forall x, In x l1 -> Qabs (value - s) < Qabs (value - x)).
Proof.
  unfold snap_value. destruct (py_max grid) as [m| |] eqn:Em; simpl; try discriminate.
  destruct (snap_loop_spec value grid None (m + 1))
    as [[Hr _]|(it & l1 & l2 & Hr & Hg & _ & Hmin & Hfirst)]; rewrite Hr.
  - discriminate.
  - destruct (py_in it grid); [|discriminate].
    intro H. injection H as <-. eauto.
Qed.

(** It returns as soon as some item is closer than [max(grid) + 1]. *)
Lemma snap_value_returns (value : Q) (grid : list Q) (m x : Q) :
  py_max grid = Ret m -> In x grid -> Qabs (value - x) < m + 1 ->
  exists s, snap_value value grid = Ret s.
Proof.
  intros Em Hx Hlt. unfold snap_value. rewrite Em. simpl.
  destruct (snap_loop_spec value grid None (m + 1))
    as [[_ Hall]|(it & l1 & l2 & Hr & Hg & _ & _ & _)].
  - specialize (Hall x Hx). lra.
  - rewrite Hr. rewrite py_in_In.
    + eauto.
    + rewrite Hg. apply in_elt.
Qed.

(** And it raises when no item is. *)
Lemma snap_value_raises (value : Q) (grid : list Q) (m : Q) :
  py_max grid = Ret m ->
  (forall x, In x grid -> m + 1 <= Qabs (value - x)) ->
  snap_value value grid = Raise (could_not_snap value).
Proof.
  intros Em Hall. unfold snap_value. rewrite Em. simpl.
  destruct (snap_loop_spec value grid None (m + 1))
    as [[Hr _]|(it & l1 & l2 & Hr & Hg & Hlt & _ & _)].
  - now rewrite Hr.
  - assert (Hin : In it grid) by (rewrite Hg; apply in_elt).
    specialize (Hall it Hin). lra.
Qed.

(** ** Enlargement on a strictly ascending grid *)

Lemma py_getitem_cases (grid : list Q) (j : Z) :
  (exists x, py_getitem grid j = Ret x /\ In x grid)
  \/ py_getitem grid j = Raise IndexError.
Proof.
  unfold py_getitem.
  destruct (_ || _)%bool; [now right|].
  destruct (nth_error grid _) as [x|] eqn:E; [|now right].
  left. exists x. split; [reflexivity|]. eapply nth_error_In; eauto.
Qed.

Lemma except_IndexError_getitem (grid : list Q) (j : Z) (s : Q) :
  In s grid ->
  exists x, except_IndexError (py_getitem grid j) s = Ret x /\ In x grid.
Proof.
  intro Hs. destruct (py_getitem_cases grid j) as [(x & E & Hx)|E]; rewrite E; simpl; eauto.
Qed.

Lemma snapped_position (value : Q) (grid : list Q) (s : Q) :
  StronglySorted Qlt grid ->
  snap_value value grid = Ret s ->
  exists i, (i < List.length grid)%nat /\ nth i grid 0 = s
            /\ py_index s grid = Ret (Z.of_nat i)
            /\ forall x, In x grid -> Qabs (value - s) <= Qabs (value - x).
Proof.
  intros Hs Hsnap.
  destruct (snap_value_sound _ _ _ Hsnap) as (l1 & l2 & Hg & Hmin & _).
  assert (Hin : In s grid) by (rewrite Hg; apply in_elt).
  destruct (In_nth _ _ 0 Hin) as (i & Hi & Hnth).
  exists i. repeat split; try assumption.
  rewrite <- Hnth. now apply py_index_sorted.
Qed.

Lemma enlarge_floor_covers (value : Q) (grid : list Q) (s : Q) :
  StronglySorted Qlt grid ->
  snap_value value grid = Ret s ->
  nth 0 grid 0 <= value ->
  exists g, enlarge_coordinate value grid true = Ret g
            /\ In g grid /\ g <= value.
Proof.
  intros Hs Hsnap Hfirst.
  destruct (snapped_position _ _ _ Hs Hsnap) as (i & Hi & Hnth & Hidx & Hmin).
  assert (Hin : In s grid) by (rewrite <- Hnth; now apply nth_In).
  unfold enlarge_coordinate. rewrite Hsnap. cbn [bind]. rewrite Hidx. cbn [bind].
  destruct (Qle_bool s value) eqn:Ele.
  - destruct (except_IndexError_getitem grid (Z.of_nat i - 1) s Hin) as (x & E & _).
    rewrite E. cbn [bind]. exists s. apply Qle_bool_iff in Ele. auto.
  - apply Qle_bool_false in Ele.
    destruct i as [|j]; [rewrite Hnth in Hfirst; lra|].
    replace (Z.of_nat (S j) - 1)%Z with (Z.of_nat j) by lia.
    rewrite py_getitem_nth by lia. cbn [except_IndexError bind].
    exists (nth j grid 0). split; [reflexivity|].
    split; [apply nth_In; lia|].
    assert (Hlt : nth j grid 0 < s).
    { rewrite <- Hnth. apply sorted_nth_lt; auto. }
    destruct (Qlt_le_dec value (nth j grid 0)) as [Hc|Hc]; [|exact Hc].
    assert (Hj : (j < List.length grid)%nat) by lia.
    assert (Hm := Hmin (nth j grid 0) (nth_In grid 0 Hj)).
    rewrite (Qabs_neg (value - s)) in Hm by lra.
    rewrite (Qabs_neg (value - nth j grid 0)) in Hm by lra. lra.
Qed.

Lemma enlarge_ceil_covers (value : Q) (grid : list Q) (s : Q) :
  StronglySorted Qlt grid ->
  snap_value value grid = Ret s ->
  value <= nth (List.length grid - 1) grid 0 ->
  exists g, enlarge_coordinate value grid false = Ret g
            /\ In g grid /\ value <= g.
Proof.
  intros Hs Hsnap Hlast.
  destruct (snapped_position _ _ _ Hs Hsnap) as (i & Hi & Hnth & Hidx & Hmin).
  assert (Hin : In s grid) by (rewrite <- Hnth; now apply nth_In).
  unfold enlarge_coordinate. rewrite Hsnap. cbn [bind]. rewrite Hidx. cbn [bind].
  destruct (Qle_bool value s) eqn:Ele.
  - destruct (except_IndexError_getitem grid (Z.of_nat i + 1) s Hin) as (x & E & _).
    rewrite E. cbn [bind]. exists s. apply Qle_bool_iff in Ele. auto.
  - apply Qle_bool_false in Ele.
    assert (Hne : i <> (List.length grid - 1)%nat).
    { intros ->. rewrite Hnth in Hlast. lra. }
    replace (Z.of_nat i + 1)%Z with (Z.of_nat (S i)) by lia.
    rewrite py_getitem_nth by lia. cbn [except_IndexError bind].
    exists (nth (S i) grid 0). split; [reflexivity|].
    split; [apply nth_In; lia|].
    assert (Hlt : s < nth (S i) grid 0).
    { rewrite <- Hnth. apply sorted_nth_lt; auto. lia. }
    destruct (Qlt_le_dec (nth (S i) grid 0) value) as [Hc|Hc]; [|exact Hc].
    assert (Hj : (S i < List.length grid)%nat) by lia.
    assert (Hm := Hmin (nth (S i) grid 0) (nth_In grid 0 Hj)).
    rewrite (Qabs_pos (value - s)) in Hm by lra.
    rewrite (Qabs_pos (value - nth (S i) grid 0)) in Hm by lra. lra.
Qed.

(** ** Grids of a resolution that divides the half-circle *)

Section Dividing.

Variable r : Q.
Variable k : nat.
Hypothesis Hk : Qof_nat k * r == 180.

Lemma dividing_pos : 0 < r.
Proof.
  assert (H : 0 <= Qof_nat k).
  { unfold Qof_nat. change 0 with (inject_Z 0). rewrite <- Zle_Qle. lia. }
  nra.
Qed.

Lemma Qof_nat_double : Qof_nat (2 * k) == 2 * Qof_nat k.
Proof.
  unfold Qof_nat. rewrite Nat2Z.inj_mul, inject_Z_mult. reflexivity.
Qed.

Lemma Qof_nat_S (n : nat) : Qof_nat (S n) == Qof_nat n + 1.
Proof.
  unfold Qof_nat. rewrite Nat2Z.inj_succ. unfold Z.succ.
  rewrite inject_Z_plus. reflexivity.
Qed.

Lemma x_grid_dividing (fuel : nat) :
  (2 * k + 2 <= fuel)%nat ->
  generate_1d_grid fuel (-180) 180 r = Ret (arith (-180) r (S (2 * k))).
Proof.
  intro Hf. pose proof dividing_pos as Hr.
  apply generate_1d_grid_arith; try lia; try assumption.
  - rewrite iter_add_closed, Qof_nat_double. nra.
  - rewrite iter_add_closed, Qof_nat_S, Qof_nat_double. nra.
Qed.

Lemma y_grid_dividing (fuel : nat) :
  (k + 2 <= fuel)%nat ->
  generate_1d_grid fuel (-90) 90 r = Ret (arith (-90) r (S k)).
Proof.
  intro Hf. pose proof dividing_pos as Hr.
  apply generate_1d_grid_arith; try lia; try assumption.
  - rewrite iter_add_closed. nra.
  - rewrite iter_add_closed, Qof_nat_S. nra.
Qed.

Lemma arith_In_nth (a : Q) (n j : nat) :
  (j < n)%nat -> In (iter_add a r j) (arith a r n).
Proof.
  intro Hj. rewrite <- (arith_nth a r n j Hj). apply nth_In.
  now rewrite arith_length.
Qed.

Lemma snap_x_returns (v : Q) :
  -180 <= v -> v <= 180 ->
  exists s, snap_value v (arith (-180) r (S (2 * k))) = Ret s.
Proof.
  intros Hlo Hhi. set (grid := arith (-180) r (S (2 * k))).
  destruct (py_max_nonempty grid) as [m Em]; [discriminate|].
  destruct (py_max_spec _ _ Em) as [_ Hmax].
  assert (Htop : 180 <= m).
  { assert (Hin : In (iter_add (-180) r (2 * k)) grid) by (apply arith_In_nth; lia).
    apply Hmax in Hin. rewrite iter_add_closed, Qof_nat_double in Hin. nra. }
  apply (snap_value_returns v grid m (iter_add (-180) r k) Em).
  - apply arith_In_nth. lia.
  - assert (E : iter_add (-180) r k == 0) by (rewrite iter_add_closed; nra).
    rewrite E. apply Qabs_case; intros; lra.
Qed.

Lemma snap_y_returns (v : Q) :
  -90 <= v -> v <= 90 ->
  exists s, snap_value v (arith (-90) r (S k)) = Ret s.
Proof.
  intros Hlo Hhi. set (grid := arith (-90) r (S k)).
  destruct (py_max_nonempty grid) as [m Em]; [discriminate|].
  destruct (py_max_spec _ _ Em) as [_ Hmax].
  assert (Htop : 90 <= m).
  { assert (Hin : In (iter_add (-90) r k) grid) by (apply arith_In_nth; lia).
    apply Hmax in Hin. rewrite iter_add_closed in Hin. nra. }
  destruct (Qlt_le_dec 0 v) as [Hv|Hv].
  - apply (snap_value_returns v grid m (iter_add (-90) r k) Em).
    + apply arith_In_nth. lia.
    + assert (E : iter_add (-90) r k == 90) by (rewrite iter_add_closed; nra).
      rewrite E. apply Qabs_case; intros; lra.
  - apply (snap_value_returns v grid m (-90) Em).
    + left. reflexivity.
    + apply Qabs_case; intros; lra.
Qed.

End Dividing.

(** ** Strings *)

Open Scope string_scope.
Open Scope list_scope.

Lemma lower_ascii_not_upper (c : ascii) : is_upper (lower_ascii c) = false.
Proof.
  destruct c as [[] [] [] [] [] [] [] []]; reflexivity.
Qed.

Lemma lower_ascii_idem (c : ascii) : lower_ascii (lower_ascii c) = lower_ascii c.
Proof.
  destruct c as [[] [] [] [] [] [] [] []]; reflexivity.
Qed.

Lemma lower_ascii_comma (c : ascii) :
  Ascii.eqb (lower_ascii c) "," = Ascii.eqb c ",".
Proof.
  destruct c as [[] [] [] [] [] [] [] []]; reflexivity.
Qed.

Lemma has_upper_lower (s : string) : has_upper (lower s) = false.
Proof.
  induction s as [|c s IH]; simpl; [reflexivity|].
  now rewrite lower_ascii_not_upper, IH.
Qed.

Lemma lower_idem (s : string) : lower (lower s) = lower s.
Proof.
  induction s as [|c s IH]; simpl; [reflexivity|].
  now rewrite lower_ascii_idem, IH.
Qed.

Lemma split_lower_comma (s : string) :
  split "," (lower s) = map lower (split "," s).
Proof.
  induction s as [|c s IH]; [reflexivity|].
  cbn [lower split]. rewrite lower_ascii_comma.
  destruct (Ascii.eqb c ",") eqn:E.
  - cbn [map lower]. now rewrite IH.
  - rewrite IH. destruct (split "," s) as [|w ws]; reflexivity.
Qed.

Lemma str_in_In (x : string) (xs : list string) :
  str_in x xs = true <-> In x xs.
Proof.
  unfold str_in. rewrite existsb_exists. split.
  - intros (y & Hy & E). apply String.eqb_eq in E. now subst.
  - intro H. exists x. split; [exact H | apply String.eqb_refl].
Qed.

Lemma truthy_Some (s : string) : truthy (Some s) = true <-> s <> "".
Proof.
  destruct s; simpl; split; congruence.
Qed.

Lemma in_range_iff (lo hi : Q) (x : pyfloat) :
  in_range lo hi x = true <-> exists q, x = Finite q /\ (lo <= q /\ q <= hi)%Q.
Proof.
  destruct x as [q| |]; simpl.
  - rewrite andb_true_iff, !Qle_bool_iff. split.
    + intros [H1 H2]. exists q. auto.
    + intros (q' & E & H). injection E as <-. exact H.
  - split; [discriminate | intros (q & E & _); discriminate].
  - split; [discriminate | intros (q & E & _); discriminate].
Qed.

(** ** Order validation *)

Section ValidationFacts.

Variable py_float : string -> option pyfloat.
Variable py_int : string -> option Z.
Variable conf : Settings.

Lemma option_name_vulnerability : option_name "vulnerability" = "vulnerabilityFormat".
Proof. reflexivity. Qed.

Lemma option_name_other (collection : string) :
  collection <> "vulnerability" -> option_name collection = "format".
Proof.
  intro H. unfold option_name.
  destruct (String.eqb collection "vulnerability") eqn:E; [|reflexivity].
  apply String.eqb_eq in E. contradiction.
Qed.

Lemma configured_whitelist_filter (key : string) (whitelist : list string) :
  configured_whitelist conf key whitelist ->
  exists others,
    map choices (filter (fun i => String.eqb (name i) key)
                        (OSEOSERVER_PROCESSING_OPTIONS conf))
    = whitelist :: others.
Proof.
  intros (pre & o & post & Hopts & Hname & Hpre & Hch).
  rewrite Hopts, filter_app.
  assert (Hnil : filter (fun i => String.eqb (name i) key) pre = []).
  { clear Hopts. induction pre as [|p pre IH]; [reflexivity|]. simpl.
    assert (E : String.eqb (name p) key = false).
    { apply String.eqb_neq. apply Hpre. now left. }
    rewrite E. apply IH. intros q Hq. apply Hpre. now right. }
  rewrite Hnil. cbn [app filter].
  assert (E : String.eqb (name o) key = true) by now apply String.eqb_eq.
  rewrite E. cbn [map]. rewrite Hch. eauto.
Qed.

Lemma _validate_format_whitelist (format_str collection : string)
  (whitelist : list string) :
  configured_whitelist conf (option_name collection) whitelist ->
  _validate_format conf format_str collection =
  if str_in format_str whitelist then Ret tt
  else Raise (ValidationError "format" "invalid value" []).
Proof.
  intro H. destruct (configured_whitelist_filter _ _ H) as [others E].
  unfold _validate_format. rewrite E.
  destruct (str_in format_str whitelist); reflexivity.
Qed.

Lemma unpack_floats_cases (parts : list string) :
  (exists fx0 fy0 fx1 fy1 a b c d,
      parts = [a; b; c; d]
      /\ py_float a = Some fx0 /\ py_float b = Some fy0
      /\ py_float c = Some fx1 /\ py_float d = Some fy1
      /\ unpack_floats py_float parts = Ret (fx0, fy0, fx1, fy1))
  \/ unpack_floats py_float parts = Raise ValueError.
Proof.
  destruct parts as [|a [|b [|c [|d [|e rest]]]]]; try (now right).
  simpl.
  destruct (py_float a) as [fa|] eqn:Ea; [|now right].
  destruct (py_float b) as [fb|] eqn:Eb; [|now right].
  destruct (py_float c) as [fc|] eqn:Ec; [|now right].
  destruct (py_float d) as [fd|] eqn:Ed; [|now right].
  left. exists fa, fb, fc, fd, a, b, c, d. repeat split; assumption.
Qed.

Lemma unpack_floats_four (s : string) (fx0 fy0 fx1 fy1 : pyfloat) :
  four_floats py_float s fx0 fy0 fx1 fy1 ->
  unpack_floats py_float (split "," s) = Ret (fx0, fy0, fx1, fy1).
Proof.
  intros (a & b & c & d & Hs & Ha & Hb & Hc & Hd).
  rewrite Hs. simpl. now rewrite Ha, Hb, Hc, Hd.
Qed.

Lemma unpack_floats_not_four (s : string) :
  (~ exists fx0 fy0 fx1 fy1, four_floats py_float s fx0 fy0 fx1 fy1) ->
  unpack_floats py_float (split "," s) = Raise ValueError.
Proof.
  intro Hnot.
  destruct (unpack_floats_cases (split "," s))
    as [(fx0 & fy0 & fx1 & fy1 & a & b & c & d & Hs & Ha & Hb & Hc & Hd & _)|E];
    [|exact E].
  exfalso. apply Hnot. exists fx0, fy0, fx1, fy1, a, b, c, d. auto.
Qed.

Lemma in_bounds_iff (fx0 fy0 fx1 fy1 : pyfloat) :
  in_bounds fx0 fy0 fx1 fy1 <->
  (in_range (-180) 180 fx0 && in_range (-180) 180 fx1)
  && (in_range (-90) 90 fy0 && in_range (-90) 90 fy1) = true.
Proof.
  rewrite !andb_true_iff, !in_range_iff. split.
  - intros (qx0 & qy0 & qx1 & qy1 & -> & -> & -> & -> & H1 & H2 & H3 & H4).
    repeat split; eexists; (split; [reflexivity | assumption]).
  - intros [[(qx0 & -> & H1) (qx1 & -> & H2)] [(qy0 & -> & H3) (qy1 & -> & H4)]].
    exists qx0, qy0, qx1, qy1. repeat split; tauto.
Qed.

Lemma _parse_bbox_not_four (s : string) :
  (~ exists fx0 fy0 fx1 fy1, four_floats py_float s fx0 fy0 fx1 fy1) ->
  _parse_bbox py_float s = Raise invalid_numeric.
Proof.
  intro H. unfold _parse_bbox. now rewrite (unpack_floats_not_four s H).
Qed.

Lemma _parse_bbox_out_of_bounds (s : string) (fx0 fy0 fx1 fy1 : pyfloat) :
  four_floats py_float s fx0 fy0 fx1 fy1 ->
  ~ in_bounds fx0 fy0 fx1 fy1 ->
  _parse_bbox py_float s = Raise invalid_values.
Proof.
  intros H4 Hb. unfold _parse_bbox. rewrite (unpack_floats_four _ _ _ _ _ H4).
  cbn [except_ValueError bind].
  rewrite in_bounds_iff in Hb. apply not_true_is_false in Hb.
  now rewrite Hb.
Qed.

Lemma _parse_bbox_in_bounds (s : string) (fx0 fy0 fx1 fy1 : pyfloat) :
  four_floats py_float s fx0 fy0 fx1 fy1 ->
  in_bounds fx0 fy0 fx1 fy1 ->
  _parse_bbox py_float s =
  Ret (mkBBox (finite_part fx0) (finite_part fy0)
              (finite_part fx1) (finite_part fy1)).
Proof.
  intros H4 Hb. unfold _parse_bbox. rewrite (unpack_floats_four _ _ _ _ _ H4).
  cbn [except_ValueError bind].
  rewrite in_bounds_iff in Hb. now rewrite Hb.
Qed.

(** An item whose layer and format pass reaches the bounding-box step. *)
Lemma order_item_of_reaches_bbox (fuel : nat) (item : RequestItem)
  (layer_ collection layer_name fmt : string) :
  item_layer item = Some layer_ -> layer_ <> "" ->
  _validate_layer conf layer_ = Ret (collection, layer_name) ->
  item_format item = Some fmt -> lower fmt <> "" ->
  _validate_format conf (lower fmt) collection = Ret tt ->
  order_item_of py_float py_int conf fuel item =
  (bbox_ <- item_bbox_value py_float conf fuel (item_bbox item) ;;
   item_filters py_int conf item collection layer_ (lower fmt) bbox_).
Proof.
  intros Hl Hne Hvl Hf Hfne Hvf. unfold order_item_of.
  rewrite Hl, Hf.
  apply truthy_Some in Hne. apply truthy_Some in Hfne.
  rewrite Hne, Hfne. cbn [negb]. rewrite Hvl. cbn [bind fst].
  rewrite Hvf. reflexivity.
Qed.

End ValidationFacts.

Section Lowercasing.

Variable py_float : string -> option pyfloat.
Variable py_int : string -> option Z.
Variable conf : Settings.

Lemma parse_categories_loop_result (tokens : list string) :
  forall acc cs,
    parse_categories_loop conf tokens acc = Ret cs ->
    cs = acc ++ map lower tokens.
Proof.
  induction tokens as [|t rest IH]; intros acc cs H.
  - simpl in H. injection H as <-. now rewrite app_nil_r.
  - cbn [parse_categories_loop] in H.
    destruct (split ":" (lower t)) as [|ct [|cv [|x xs]]]; try discriminate.
    destruct (negb (str_in ct (map fst (taxonomy_mapping conf)))); [discriminate|].
    destruct (negb (str_in cv (mapping_get (taxonomy_mapping conf) ct))); [discriminate|].
    apply IH in H. rewrite H, <- app_assoc. reflexivity.
Qed.

Lemma _parse_categories_result (s : string) (cs : list string) :
  _parse_categories conf s = Ret cs -> cs = map lower (split "," s).
Proof.
  intro H. apply parse_categories_loop_result in H. exact H.
Qed.

Lemma parse_categories_loop_lower (tokens : list string) :
  forall acc,
    parse_categories_loop conf (map lower tokens) acc
    = parse_categories_loop conf tokens acc.
Proof.
  induction tokens as [|t rest IH]; intro acc; [reflexivity|].
  cbn [map parse_categories_loop]. rewrite lower_idem.
  destruct (split ":" (lower t)) as [|ct [|cv [|x xs]]]; try reflexivity.
  destruct (negb (str_in ct (map fst (taxonomy_mapping conf)))); [reflexivity|].
  destruct (negb (str_in cv (mapping_get (taxonomy_mapping conf) ct))); [reflexivity|].
  apply IH.
Qed.

Lemma _parse_categories_lower (s : string) :
  _parse_categories conf (lower s) = _parse_categories conf s.
Proof.
  unfold _parse_categories. rewrite split_lower_comma.
  apply parse_categories_loop_lower.
Qed.

Lemma item_filters_lower (item : RequestItem) (collection layer_ format_ : string)
  (bbox_ : option BBox) :
  item_filters py_int conf (lower_item item) collection layer_ format_ bbox_
  = item_filters py_int conf item collection layer_ format_ bbox_.
Proof.
  unfold item_filters, lower_item. cbn [item_taxonomic_categories item_event_ids].
  destruct (item_taxonomic_categories item) as [cats|]; cbn [option_map];
    [rewrite _parse_categories_lower|]; reflexivity.
Qed.

Lemma order_item_of_lower (fuel : nat) (item : RequestItem) :
  order_item_of py_float py_int conf fuel (lower_item item)
  = order_item_of py_float py_int conf fuel item.
Proof.
  unfold order_item_of.
  change (item_layer (lower_item item)) with (item_layer item).
  change (item_bbox (lower_item item)) with (item_bbox item).
  change (item_format (lower_item item)) with (option_map lower (item_format item)).
  assert (Ef : lower (match option_map lower (item_format item) with
                      | Some f => f | None => "" end)
               = lower (match item_format item with
                        | Some f => f | None => "" end)).
  { destruct (item_format item); cbn [option_map]; [apply lower_idem | reflexivity]. }
  rewrite Ef.
  destruct (negb (truthy (item_layer item))); [reflexivity|].
  destruct (_validate_layer conf _) as [cl| |]; cbn [bind]; try reflexivity.
  destruct (negb (truthy (Some _))); [reflexivity|].
  destruct (_validate_format conf _ _); cbn [bind]; try reflexivity.
  destruct (item_bbox_value py_float conf fuel _); cbn [bind]; try reflexivity.
  apply item_filters_lower.
Qed.

Lemma items_loop_lower (fuel : nat) (items : list RequestItem) :
  forall acc,
    items_loop py_float py_int conf fuel (map lower_item items) acc
    = items_loop py_float py_int conf fuel items acc.
Proof.
  induction items as [|item rest IH]; intro acc; [reflexivity|].
  cbn [map items_loop]. rewrite order_item_of_lower.
  destruct (order_item_of py_float py_int conf fuel item); cbn [bind];
    try reflexivity.
  apply IH.
Qed.

Lemma to_internal_value_lower (fuel : nat) (data : RequestData) :
  to_internal_value py_float py_int conf fuel (lower_data data)
  = to_internal_value py_float py_int conf fuel data.
Proof.
  unfold to_internal_value, lower_data.
  cbn [data_order_items data_notification_email].
  destruct (data_order_items data) as [[|item rest]|]; cbn [option_map map];
    try reflexivity.
  change (lower_item item :: map lower_item rest)
    with (map lower_item (item :: rest)).
  now rewrite items_loop_lower.
Qed.

Lemma parse_categories_loop_matches (tokens : list string) :
  forall acc cs,
    parse_categories_loop conf tokens acc = Ret cs ->
    Forall (category_matches conf) (map lower tokens).
Proof.
  induction tokens as [|t rest IH]; intros acc cs H; [constructor|].
  cbn [parse_categories_loop] in H.
  destruct (split ":" (lower t)) as [|ct [|cv [|x xs]]] eqn:Es; try discriminate.
  destruct (str_in ct (map fst (taxonomy_mapping conf))) eqn:Et;
    cbn [negb] in H; [|discriminate].
  destruct (str_in cv (mapping_get (taxonomy_mapping conf) ct)) eqn:Ev;
    cbn [negb] in H; [|discriminate].
  cbn [map]. constructor; [|eapply IH; eauto].
  exists ct, cv. apply str_in_In in Et. apply str_in_In in Ev. auto.
Qed.

Lemma stored_plain (item : RequestItem) (layer_ collection layer_name : string)
  (b : option BBox) (e : option (list Z)) :
  _validate_layer conf layer_ = Ret (collection, layer_name) ->
  _validate_format conf
    (lower (match item_format item with Some f => f | None => "" end))
    collection = Ret tt ->
  stored_lowercase conf item
    (mkOrderItem layer_
       (lower (match item_format item with Some f => f | None => "" end))
       b None e).
Proof.
  intros Hl Hf. unfold stored_lowercase. cbn [format layer taxonomic_categories].
  split; [reflexivity|]. split; [apply has_upper_lower|].
  split; [eauto | discriminate].
Qed.

Lemma item_filters_stored (item : RequestItem) (collection layer_name layer_ : string)
  (bbox_ : option BBox) (oi : OrderItem) :
  _validate_layer conf layer_ = Ret (collection, layer_name) ->
  _validate_format conf
    (lower (match item_format item with Some f => f | None => "" end))
    collection = Ret tt ->
  item_filters py_int conf item collection layer_
    (lower (match item_format item with Some f => f | None => "" end)) bbox_
  = Ret oi ->
  stored_lowercase conf item oi.
Proof.
  intros Hl Hf. unfold item_filters. intro H.
  destruct (String.eqb collection "exposure").
  - destruct (item_taxonomic_categories item) as [cats|] eqn:Ec.
    + destruct (_parse_categories conf cats) as [cs| |] eqn:Ep; try discriminate.
      cbn [bind] in H. injection H as <-.
      pose proof (parse_categories_loop_matches _ _ _ Ep) as Hm.
      apply _parse_categories_result in Ep.
      unfold stored_lowercase. cbn [format layer taxonomic_categories].
      split; [reflexivity|]. split; [apply has_upper_lower|].
      split; [eauto|].
      intros cs' E. injection E as <-. split; [eauto|].
      subst cs. rewrite Forall_forall in *. intros c Hc. split; [|now apply Hm].
      apply in_map_iff in Hc. destruct Hc as (t & <- & _).
      apply has_upper_lower.
    + injection H as <-. now apply stored_plain with collection layer_name.
  - destruct (String.eqb collection "hazard").
    + destruct (item_event_ids item) as [ids|].
      * destruct (_parse_event_ids py_int ids) as [ns| |]; try discriminate.
        cbn [bind] in H. injection H as <-.
        now apply stored_plain with collection layer_name.
      * injection H as <-. now apply stored_plain with collection layer_name.
    + injection H as <-. now apply stored_plain with collection layer_name.
Qed.

Lemma order_item_of_stored (fuel : nat) (item : RequestItem) (oi : OrderItem) :
  order_item_of py_float py_int conf fuel item = Ret oi ->
  stored_lowercase conf item oi.
Proof.
  unfold order_item_of.
  destruct (negb (truthy (item_layer item))); [discriminate|].
  destruct (_validate_layer conf _) as [[collection layer_name]| |] eqn:El;
    cbn [bind fst]; try discriminate.
  destruct (negb (truthy (Some _))); [discriminate|].
  destruct (_validate_format conf _ _) as [[]| |] eqn:Ef; cbn [bind];
    try discriminate.
  destruct (item_bbox_value py_float conf fuel _); cbn [bind]; try discriminate.
  now apply item_filters_stored with layer_name.
Qed.

Lemma items_loop_stored (fuel : nat) (items : list RequestItem) :
  forall acc res,
    items_loop py_float py_int conf fuel items acc = Ret res ->
    exists ois, res = acc ++ ois /\ Forall2 (stored_lowercase conf) items ois.
Proof.
  induction items as [|item rest IH]; intros acc res H.
  - simpl in H. injection H as <-. exists []. split; [now rewrite app_nil_r | constructor].
  - cbn [items_loop] in H.
    destruct (order_item_of py_float py_int conf fuel item) as [oi| |] eqn:E;
      cbn [bind] in H; try discriminate.
    destruct (IH _ _ H) as (ois & -> & HF).
    exists (oi :: ois). split; [now rewrite <- app_assoc|].
    constructor; [|exact HF]. eapply order_item_of_stored; eauto.
Qed.

End Lowercasing.

(** * The specification's claims *)

Open Scope Q_scope.

(** ** Boundary behaviour of the enlargement *)

(** In the floor case the index before position 0 is [-1], which Python
    reads as the last position: the [IndexError] handler never runs. *)
Lemma enlarge_floor_first_position (value : Q) (grid : list Q) (s : Q) :
  snap_value value grid = Ret s ->
  py_index s grid = Ret 0%Z ->
  value < s ->
  enlarge_coordinate value grid true = Ret (last grid 0).
Proof.
  intros Hsnap Hidx Hlt. unfold enlarge_coordinate.
  rewrite Hsnap. cbn [bind]. rewrite Hidx. cbn [bind].
  change (0 - 1)%Z with (-1)%Z.
  rewrite py_getitem_minus_one.
  - cbn [except_IndexError bind].
    apply Qle_bool_false in Hlt. now rewrite Hlt.
  - intros ->. discriminate.
Qed.


(** C1.  The claim: in the floor case, when the snapped value exceeds
    the raw value and sits at the grid's first position, the snapped
    value itself is returned.  On the grid [0, 1, 2] and the value [-1]
    the snapped value is [0], found at position 0 and above [-1], and
    [enlarge_coordinate] returns [2], the last item of the grid. *)
Theorem enlarge_floor_first_position_returns_last :
  snap_value (-1) [0; 1; 2] = Ret 0
  /\ py_index 0 [0; 1; 2] = Ret 0%Z
  /\ enlarge_coordinate (-1) [0; 1; 2] true = Ret 2.
Proof.
  repeat split; reflexivity.
Qed.

(** ** Containment of the snapped box *)

Lemma generate_1d_grid_arith_or_out (start end_ r : Q) (n fuel : nat) :
  0 < r ->
  iter_add start r n <= end_ ->
  end_ < iter_add start r (S n) ->
  generate_1d_grid fuel start end_ r = Ret (arith start r (S n))
  \/ generate_1d_grid fuel start end_ r = OutOfFuel.
Proof.
  intros Hr Hle Hgt.
  destruct (Nat.lt_ge_cases (S n) fuel) as [Hf|Hf].
  - left. now apply generate_1d_grid_arith.
  - right. unfold generate_1d_grid.
    assert (Hz : Qeq_bool r 0 = false) by (apply Qeq_bool_false; lra).
    rewrite Hz.
    assert (Hshort : forall f i acc,
               (forall j, (j < f)%nat -> iter_add i r j <= end_) ->
               count_loop f i end_ r acc = OutOfFuel).
    { induction f as [|f IH]; intros i acc Hall; [reflexivity|].
      cbn [count_loop].
      assert (E : Qlt_bool end_ i = false).
      { apply Qlt_bool_false. apply (Hall 0%nat). lia. }
      rewrite E. apply IH. intros j Hj. apply (Hall (S j)). lia. }
    apply Hshort. intros j Hj.
    destruct (Nat.eq_dec j n) as [->|Hne]; [exact Hle|].
    apply Qlt_le_weak. eapply Qlt_le_trans; [|exact Hle].
    apply iter_add_mono; [exact Hr | lia].
Qed.

(** With resolution 7 the longitude grid ends at 177, so the box
    (0, 0, 179, 0) is never returned enlarged; whenever the call returns,
    the result is (-5, -6, 177, 1), whose right edge 177 lies inside the
    requested 179. *)
Lemma snap_bbox_resolution_7_cuts_right_edge :
  snap_bbox_to_grid 100 7 (mkBBox 0 0 179 0) = Ret (mkBBox (-5) (-6) 177 1)
  /\ (forall fuel b',
         snap_bbox_to_grid fuel 7 (mkBBox 0 0 179 0) = Ret b' ->
         ~ x1 (mkBBox 0 0 179 0) <= x1 b').
Proof.
  split; [vm_compute; reflexivity|].
  intros fuel b' H. unfold snap_bbox_to_grid in H.
  destruct (generate_1d_grid_arith_or_out (-180) 180 7 51 fuel) as [Ex|Ex];
    try (vm_compute; congruence);
    rewrite Ex in H; cbn [bind] in H; [|discriminate].
  destruct (generate_1d_grid_arith_or_out (-90) 90 7 25 fuel) as [Ey|Ey];
    try (vm_compute; congruence);
    rewrite Ey in H; cbn [bind] in H; [|discriminate].
  vm_compute in H. injection H as <-. vm_compute. intro Hc. now apply Hc.
Qed.

Lemma enlarge_coordinate_snapped (value : Q) (grid : list Q) (floor : bool) (g : Q) :
  enlarge_coordinate value grid floor = Ret g ->
  exists s, snap_value value grid = Ret s.
Proof.
  unfold enlarge_coordinate.
  destruct (snap_value value grid) as [s| |]; cbn [bind]; try discriminate.
  eauto.
Qed.

Lemma arith_last (a r : Q) (n : nat) :
  last (arith a r (S n)) 0 = nth (List.length (arith a r (S n)) - 1) (arith a r (S n)) 0.
Proof.
  rewrite arith_length. replace (S n - 1)%nat with n by lia.
  rewrite arith_nth by lia. rewrite arith_snoc. apply last_last.
Qed.

Lemma enlarge_floor_returned (value : Q) (grid : list Q) (g : Q) :
  StronglySorted Qlt grid ->
  nth 0 grid 0 <= value ->
  enlarge_coordinate value grid true = Ret g ->
  In g grid /\ g <= value.
Proof.
  intros Hs Hfirst Hg.
  destruct (enlarge_coordinate_snapped _ _ _ _ Hg) as [s Es].
  destruct (enlarge_floor_covers value grid s Hs Es Hfirst) as (g' & Eg & Hin & Hle).
  rewrite Hg in Eg. injection Eg as <-. auto.
Qed.

Lemma enlarge_ceil_returned (value : Q) (grid : list Q) (g : Q) :
  StronglySorted Qlt grid ->
  enlarge_coordinate value grid false = Ret g ->
  In g grid
  /\ (value <= nth (List.length grid - 1) grid 0 -> value <= g).
Proof.
  intros Hs Hg.
  destruct (enlarge_coordinate_snapped _ _ _ _ Hg) as [s Es]. split.
  - destruct (snapped_position _ _ _ Hs Es) as (i & Hi & Hnth & Hidx & _).
    assert (Hin : In s grid) by (rewrite <- Hnth; now apply nth_In).
    unfold enlarge_coordinate in Hg. rewrite Es in Hg. cbn [bind] in Hg.
    rewrite Hidx in Hg. cbn [bind] in Hg.
    destruct (except_IndexError_getitem grid (Z.of_nat i + 1) s Hin) as (x & E & Hx).
    rewrite E in Hg. cbn [bind] in Hg. injection Hg as <-.
    destruct (Qle_bool value s); assumption.
  - intro Hlast.
    destruct (enlarge_ceil_covers value grid s Hs Es Hlast) as (g' & Eg & _ & Hle).
    rewrite Hg in Eg. injection Eg as <-. exact Hle.
Qed.

(** What a returned box satisfies, for any positive resolution. *)
Lemma snap_bbox_to_grid_returned (r : Q) (fuel : nat) (b b' : BBox) :
  0 < r -> in_world b ->
  snap_bbox_to_grid fuel r b = Ret b' ->
  exists x_grid y_grid,
    generate_1d_grid fuel (-180) 180 r = Ret x_grid
    /\ generate_1d_grid fuel (-90) 90 r = Ret y_grid
    /\ on_grids b' x_grid y_grid
    /\ x0 b' <= x0 b /\ y0 b' <= y0 b
    /\ (x1 b <= last x_grid 0 -> x1 b <= x1 b')
    /\ (y1 b <= last y_grid 0 -> y1 b <= y1 b').
Proof.
  intros Hr ((Hx0l & Hx0h) & (Hx1l & Hx1h) & (Hy0l & Hy0h) & (Hy1l & Hy1h)) H.
  unfold snap_bbox_to_grid in H.
  destruct (steps_between_bounds (-180) 180 r ltac:(lra) Hr) as [Hxlo Hxhi].
  destruct (steps_between_bounds (-90) 90 r ltac:(lra) Hr) as [Hylo Hyhi].
  rewrite <- iter_add_closed in Hxlo, Hxhi, Hylo, Hyhi.
  destruct (generate_1d_grid_arith_or_out (-180) 180 r _ fuel Hr Hxlo Hxhi) as [Ex|Ex];
    rewrite Ex in H; cbn [bind] in H; [|discriminate].
  destruct (generate_1d_grid_arith_or_out (-90) 90 r _ fuel Hr Hylo Hyhi) as [Ey|Ey];
    rewrite Ey in H; cbn [bind] in H; [|discriminate].
  set (gx := arith (-180) r (S (steps_between (-180) 180 r))) in *.
  set (gy := arith (-90) r (S (steps_between (-90) 90 r))) in *.
  assert (Sx : StronglySorted Qlt gx) by now apply arith_sorted.
  assert (Sy : StronglySorted Qlt gy) by now apply arith_sorted.
  destruct (enlarge_coordinate (x0 b) gx true) as [nx0| |] eqn:E1; cbn [bind] in H; try discriminate.
  destruct (enlarge_coordinate (y0 b) gy true) as [ny0| |] eqn:E2; cbn [bind] in H; try discriminate.
  destruct (enlarge_coordinate (x1 b) gx false) as [nx1| |] eqn:E3; cbn [bind] in H; try discriminate.
  destruct (enlarge_coordinate (y1 b) gy false) as [ny1| |] eqn:E4; cbn [bind] in H; try discriminate.
  injection H as <-. cbn [x0 y0 x1 y1].
  destruct (enlarge_floor_returned _ _ _ Sx Hx0l E1) as [I1 C1].
  destruct (enlarge_floor_returned _ _ _ Sy Hy0l E2) as [I2 C2].
  destruct (enlarge_ceil_returned _ _ _ Sx E3) as [I3 C3].
  destruct (enlarge_ceil_returned _ _ _ Sy E4) as [I4 C4].
  exists gx, gy. unfold on_grids. cbn [x0 y0 x1 y1].
  repeat split; try assumption.
  - intro Hl. apply C3. unfold gx in *. now rewrite <- arith_last.
  - intro Hl. apply C4. unfold gy in *. now rewrite <- arith_last.
Qed.

(** In exact arithmetic: what a returned box satisfies for a positive
    resolution, that the call returns and the box contains the input
    when 180 is a whole multiple of the resolution, and the half-degree
    example. *)
Theorem snap_bbox_to_grid_encloses :
  (forall (r : Q) (fuel : nat) (b b' : BBox),
      0 < r -> in_world b ->
      snap_bbox_to_grid fuel r b = Ret b' ->
      exists x_grid y_grid,
        generate_1d_grid fuel (-180) 180 r = Ret x_grid
        /\ generate_1d_grid fuel (-90) 90 r = Ret y_grid
        /\ on_grids b' x_grid y_grid
        /\ x0 b' <= x0 b /\ y0 b' <= y0 b
        /\ (x1 b <= last x_grid 0 -> x1 b <= x1 b')
        /\ (y1 b <= last y_grid 0 -> y1 b <= y1 b'))
  /\ (forall (r : Q) (k fuel : nat) (b : BBox),
         Qof_nat k * r == 180 ->
         (2 * k + 2 <= fuel)%nat ->
         in_world b ->
         exists b' x_grid y_grid,
           snap_bbox_to_grid fuel r b = Ret b'
           /\ generate_1d_grid fuel (-180) 180 r = Ret x_grid
           /\ generate_1d_grid fuel (-90) 90 r = Ret y_grid
           /\ on_grids b' x_grid y_grid
           /\ encloses b' b)
  /\ (forall fuel : nat,
         (722 <= fuel)%nat ->
         exists b',
           snap_bbox_to_grid fuel (1 # 2) sample_bbox = Ret b'
           /\ x0 b' == 10 /\ y0 b' == 41 # 2
           /\ x1 b' == 31 # 2 /\ y1 b' == 51 # 2).
Proof.
  split; [exact snap_bbox_to_grid_returned|]. split.
  - intros r k fuel b Hk Hfuel Hw.
    pose proof (dividing_pos r k Hk) as Hr.
    assert (Ex := x_grid_dividing r k Hk fuel Hfuel).
    assert (Ey := y_grid_dividing r k Hk fuel ltac:(lia)).
    destruct Hw as ((Hx0l & Hx0h) & (Hx1l & Hx1h) & (Hy0l & Hy0h) & (Hy1l & Hy1h)).
    set (gx := arith (-180) r (S (2 * k))) in *.
    set (gy := arith (-90) r (S k)) in *.
    assert (Sx : StronglySorted Qlt gx) by now apply arith_sorted.
    assert (Sy : StronglySorted Qlt gy) by now apply arith_sorted.
    assert (Fx : nth 0 gx 0 = -180) by reflexivity.
    assert (Fy : nth 0 gy 0 = -90) by reflexivity.
    assert (Lx : nth (List.length gx - 1) gx 0 == 180).
    { unfold gx. rewrite arith_length.
      replace (S (2 * k) - 1)%nat with (2 * k)%nat by lia.
      rewrite arith_nth by lia.
      rewrite iter_add_closed, (Qof_nat_double k). nra. }
    assert (Ly : nth (List.length gy - 1) gy 0 == 90).
    { unfold gy. rewrite arith_length.
      replace (S k - 1)%nat with k by lia.
      rewrite arith_nth by lia. rewrite iter_add_closed. nra. }
    destruct (snap_x_returns r k Hk (x0 b) Hx0l Hx0h) as [sx0 Esx0].
    destruct (snap_x_returns r k Hk (x1 b) Hx1l Hx1h) as [sx1 Esx1].
    destruct (snap_y_returns r k Hk (y0 b) Hy0l Hy0h) as [sy0 Esy0].
    destruct (snap_y_returns r k Hk (y1 b) Hy1l Hy1h) as [sy1 Esy1].
    destruct (enlarge_floor_covers (x0 b) gx sx0 Sx Esx0) as (nx0 & Enx0 & Inx0 & Cx0);
      [rewrite Fx; exact Hx0l|].
    destruct (enlarge_floor_covers (y0 b) gy sy0 Sy Esy0) as (ny0 & Eny0 & Iny0 & Cy0);
      [rewrite Fy; exact Hy0l|].
    destruct (enlarge_ceil_covers (x1 b) gx sx1 Sx Esx1) as (nx1 & Enx1 & Inx1 & Cx1);
      [rewrite Lx; exact Hx1h|].
    destruct (enlarge_ceil_covers (y1 b) gy sy1 Sy Esy1) as (ny1 & Eny1 & Iny1 & Cy1);
      [rewrite Ly; exact Hy1h|].
    exists (mkBBox nx0 ny0 nx1 ny1), gx, gy.
    unfold snap_bbox_to_grid. rewrite Ex, Ey. cbn [bind].
    rewrite Enx0, Eny0, Enx1, Eny1. cbn [bind].
    repeat split; assumption.
  - intros fuel Hfuel.
    assert (Hk : Qof_nat 360 * (1 # 2) == 180) by reflexivity.
    assert (Ex := x_grid_dividing (1 # 2) 360 Hk fuel ltac:(lia)).
    assert (Ey := y_grid_dividing (1 # 2) 360 Hk fuel ltac:(lia)).
    unfold snap_bbox_to_grid. rewrite Ex, Ey. cbn [bind].
    eexists. split; [vm_compute; reflexivity|].
    repeat split; vm_compute; reflexivity.
Qed.

(** The half-degree grid: 360 steps of 0.5 make 180. *)
Lemma snap_bbox_to_grid_encloses_half_degree :
  exists b' x_grid y_grid,
    snap_bbox_to_grid 1000 (1 # 2) sample_bbox = Ret b'
    /\ generate_1d_grid 1000 (-180) 180 (1 # 2) = Ret x_grid
    /\ generate_1d_grid 1000 (-90) 90 (1 # 2) = Ret y_grid
    /\ on_grids b' x_grid y_grid
    /\ encloses b' sample_bbox.
Proof.
  apply (proj1 (proj2 snap_bbox_to_grid_encloses) (1 # 2) 360%nat 1000%nat sample_bbox).
  - reflexivity.
  - lia.
  - unfold in_world, sample_bbox; cbn [x0 y0 x1 y1]. repeat split; lra.
Defined.

(** ** The nearest-value snap *)

(** A value of the grid is returned (as the grid holds it) as soon as the
    initial [best_delta = max(grid) + 1] is positive. *)
Lemma snap_value_member (v : Q) (grid : list Q) (m : Q) :
  In v grid -> py_max grid = Ret m -> 0 < m + 1 ->
  exists s, snap_value v grid = Ret s /\ s == v.
Proof.
  intros Hin Em Hpos.
  assert (Hz : Qabs (v - v) == 0) by (apply Qabs_zero_iff; ring).
  destruct (snap_value_returns v grid m v Em Hin) as [s Es]; [lra|].
  exists s. split; [exact Es|].
  destruct (snap_value_sound _ _ _ Es) as (l1 & l2 & _ & Hmin & _).
  specialize (Hmin v Hin).
  assert (H0 : Qabs (v - s) == 0).
  { apply Qle_antisym; [lra | apply Qabs_nonneg]. }
  apply (proj1 (Qabs_zero_iff (v - s))) in H0. lra.
Qed.

(** C3.  The claim: for every value [v] and every non-empty grid that
    contains [v], [snap_value] returns [v] and raises nothing.  On the
    grid [-5] and the value [-5] the initial [best_delta] is
    [max(grid) + 1 = -4], the distance 0 is not below it, [result] stays
    [None] and the call raises [RuntimeError]. *)
Theorem snap_value_member_of_negative_grid_raises :
  In (-5) [-5]
  /\ py_max [-5] = Ret (-5)
  /\ snap_loop (-5) [-5] None (-5 + 1) = None
  /\ snap_value (-5) [-5] = Raise (could_not_snap (-5)).
Proof.
  repeat split; try reflexivity. now left.
Qed.

(** C6.  The claim: for every target and every non-empty sequence of
    candidates, [snap_value] returns the candidate of minimum absolute
    distance, the earlier one on a tie, stopping at distance zero.  On the
    candidates [1, 2] and the target [10] the nearest candidate is [2], at
    distance 8; the initial [best_delta] is [max(grid) + 1 = 3], no
    distance is below it, and the call raises [RuntimeError]. *)
Theorem snap_value_far_target_raises :
  Qabs (10 - 2) == 8
  /\ Qabs (10 - 2) <= Qabs (10 - 1)
  /\ py_max [1; 2] = Ret 2
  /\ snap_value 10 [1; 2] = Raise (could_not_snap 10).
Proof.
  repeat split; try reflexivity. vm_compute. discriminate.
Qed.

(** ** The grid generator *)

(** In exact arithmetic, for [start <= end_] and a resolution [r > 0],
    with [n = floor((end_ - start) / r)]: the grid is the [n + 1] values
    [start + k * r], strictly ascending, none above [end_]. *)
Theorem generate_1d_grid_ascending (start end_ r : Q) (fuel : nat) :
  start <= end_ -> 0 < r ->
  (steps_between start end_ r + 2 <= fuel)%nat ->
  exists grid,
    generate_1d_grid fuel start end_ r = Ret grid
    /\ List.length grid = S (steps_between start end_ r)
    /\ (forall k, (k <= steps_between start end_ r)%nat ->
                  nth k grid 0 == start + Qof_nat k * r)
    /\ StronglySorted Qlt grid
    /\ last grid 0 == start + Qof_nat (steps_between start end_ r) * r
    /\ Forall (fun x => x <= end_) grid
    /\ (forall k : nat, start + Qof_nat k * r <= end_ ->
                        (k <= steps_between start end_ r)%nat).
Proof.
  intros Hse Hr Hfuel. set (n := steps_between start end_ r) in *.
  destruct (steps_between_bounds start end_ r Hse Hr) as [Hlo Hhi].
  fold n in Hlo, Hhi.
  exists (arith start r (S n)).
  split; [|split; [|split; [|split; [|split; [|split]]]]].
  - apply generate_1d_grid_arith; try assumption; try lia;
      rewrite iter_add_closed; assumption.
  - apply arith_length.
  - intros k Hk. rewrite arith_nth by lia. apply iter_add_closed.
  - now apply arith_sorted.
  - rewrite arith_snoc, last_last. apply iter_add_closed.
  - apply Forall_forall. intros x Hx.
    destruct (In_nth _ _ 0 Hx) as (j & Hj & <-).
    rewrite arith_length in Hj. rewrite arith_nth by exact Hj.
    destruct (Nat.eq_dec j n) as [->|Hne].
    + rewrite iter_add_closed. exact Hlo.
    + apply Qlt_le_weak. eapply Qlt_le_trans.
      * apply (iter_add_mono start r j n Hr). lia.
      * rewrite iter_add_closed. exact Hlo.
  - intros k Hk. destruct (Nat.le_gt_cases k n) as [Hle|Hgt]; [exact Hle|].
    exfalso.
    assert (H : iter_add start r (S n) <= iter_add start r k).
    { destruct (Nat.eq_dec k (S n)) as [->|Hne]; [lra|].
      apply Qlt_le_weak. apply iter_add_mono; [exact Hr | lia]. }
    rewrite !iter_add_closed in H. lra.
Qed.

(** From 0 to 3 in steps of 1. *)
Lemma generate_1d_grid_ascending_0_to_3 :
  exists grid,
    generate_1d_grid 10 0 3 1 = Ret grid
    /\ List.length grid = S (steps_between 0 3 1)
    /\ (forall k, (k <= steps_between 0 3 1)%nat ->
                  nth k grid 0 == 0 + Qof_nat k * 1)
    /\ StronglySorted Qlt grid
    /\ last grid 0 == 0 + Qof_nat (steps_between 0 3 1) * 1
    /\ Forall (fun x => x <= 3) grid
    /\ (forall k : nat, 0 + Qof_nat k * 1 <= 3 ->
                        (k <= steps_between 0 3 1)%nat).
Proof.
  apply (generate_1d_grid_ascending 0 3 1 10).
  - lra.
  - lra.
  - vm_compute. lia.
Defined.

(** C5.  With a resolution equal to zero [generate_1d_grid] raises the
    zero-resolution [RuntimeError], whatever the bounds and the iteration
    budget, and so never returns a grid. *)
Theorem generate_1d_grid_zero_resolution (fuel : nat) (start end_ r : Q) :
  r == 0 ->
  generate_1d_grid fuel start end_ r = Raise zero_resolution
  /\ forall grid, generate_1d_grid fuel start end_ r <> Ret grid.
Proof.
  intro Hr. apply Qeq_bool_iff in Hr.
  unfold generate_1d_grid. rewrite Hr. split; [reflexivity | discriminate].
Qed.

(** The longitude range with resolution 0. *)
Lemma generate_1d_grid_zero_resolution_world :
  generate_1d_grid 0 (-180) 180 0 = Raise zero_resolution
  /\ forall grid, generate_1d_grid 0 (-180) 180 0 <> Ret grid.
Proof.
  apply (generate_1d_grid_zero_resolution 0 (-180) 180 0). reflexivity.
Defined.

(** C9.  For [start <= end_] and a resolution [r < 0] the loop of
    [generate_1d_grid] is still running after any number of iterations:
    each counter is below the previous one and none exceeds [end_], so
    the [break] is never reached. *)
Theorem generate_1d_grid_negative_resolution (fuel : nat) (start end_ r : Q) :
  start <= end_ -> r < 0 ->
  generate_1d_grid fuel start end_ r = OutOfFuel
  /\ (forall k, iter_add start r (S k) < iter_add start r k
                /\ Qlt_bool end_ (iter_add start r k) = false).
Proof.
  intros Hse Hr. split.
  - unfold generate_1d_grid.
    assert (Hz : Qeq_bool r 0 = false) by (apply Qeq_bool_false; lra).
    rewrite Hz. now apply count_loop_diverges.
  - intro k. split.
    + rewrite iter_add_S. lra.
    + apply Qlt_bool_false. rewrite iter_add_closed.
      assert (0 <= Qof_nat k).
      { unfold Qof_nat. change 0 with (inject_Z 0). rewrite <- Zle_Qle. lia. }
      nra.
Qed.

(** The longitude range with resolution -1. *)
Lemma generate_1d_grid_negative_resolution_world :
  generate_1d_grid 5000 (-180) 180 (-1) = OutOfFuel
  /\ (forall k, iter_add (-180) (-1) (S k) < iter_add (-180) (-1) k
                /\ Qlt_bool 180 (iter_add (-180) (-1) k) = false).
Proof.
  apply (generate_1d_grid_negative_resolution 5000 (-180) 180 (-1)); lra.
Defined.

(** ** Order intake *)

Open Scope string_scope.
Open Scope list_scope.

(** C7, the claim as stated fails.  An item may carry the bbox string
    [""], which does not split into four parts, and validation accepts
    it with no bounding box; and an item without a layer that carries
    ["a,b,c"] is rejected for its [layer], not for its [bbox]. *)
Lemma empty_bbox_string_is_accepted :
  (~ exists fx0 fy0 fx1 fy1, four_floats decimal_float "" fx0 fy0 fx1 fy1)
  /\ order_item_of decimal_float decimal_int (sample_conf None) 0
       (mkRequestItem (Some "exposure:res1") (Some "geotiff") (Some "") None None)
     = Ret (mkOrderItem "exposure:res1" "geotiff" None None None)
  /\ order_item_of decimal_float decimal_int (sample_conf None) 0
       (mkRequestItem None (Some "geotiff") (Some "a,b,c") None None)
     = Raise (ValidationError "layer" "this field is required" []).
Proof.
  split; [|split; reflexivity].
  intros (fx0 & fy0 & fx1 & fy1 & a & b & c & d & Hs & _). discriminate Hs.
Qed.

(** C7, amended.  For every order item that carries a non-empty bbox
    string and whose layer and format pass their checks: if the string
    does not split into exactly four parts that [float] reads, validation
    raises a [ValidationError] on [bbox]; if it does and a value is
    outside its range (x in [-180, 180], y in [-90, 90]), it raises a
    [ValidationError] on [bbox]; if it does and all are in range, the
    parsed box goes through [snap_bbox_to_grid] when a resolution is
    configured and is kept as it is when the resolution is [None].  The
    string ["a,b,c"] is of the first kind. *)
Theorem bbox_validation
  (py_float : string -> option pyfloat) (py_int : string -> option Z)
  (conf : Settings) (fuel : nat) (item : RequestItem)
  (layer_ collection layer_name fmt s : string) :
  item_layer item = Some layer_ -> layer_ <> "" ->
  _validate_layer conf layer_ = Ret (collection, layer_name) ->
  item_format item = Some fmt -> lower fmt <> "" ->
  _validate_format conf (lower fmt) collection = Ret tt ->
  item_bbox item = Some s -> s <> "" ->
  let run := order_item_of py_float py_int conf fuel item in
  let filters := item_filters py_int conf item collection layer_ (lower fmt) in
  ((~ exists fx0 fy0 fx1 fy1, four_floats py_float s fx0 fy0 fx1 fy1) ->
   run = Raise (ValidationError "bbox" "Invalid numeric values" []))
  /\ (forall fx0 fy0 fx1 fy1,
         four_floats py_float s fx0 fy0 fx1 fy1 ->
         (~ in_bounds fx0 fy0 fx1 fy1 ->
          run = Raise (ValidationError "bbox"
                         "Invalid values. Expecting x0,y0,x1,y1" []))
         /\ (in_bounds fx0 fy0 fx1 fy1 ->
             let parsed := mkBBox (finite_part fx0) (finite_part fy0)
                                  (finite_part fx1) (finite_part fy1) in
             match bbox_snap_resolution conf with
             | Some grid_resolution =>
                 run = (b <- snap_bbox_to_grid fuel grid_resolution parsed ;;
                        filters (Some b))
             | None => run = filters (Some parsed)
             end))
  /\ (s = "a,b,c" ->
      run = Raise (ValidationError "bbox" "Invalid numeric values" [])).
Proof.
  intros Hl Hlne Hvl Hf Hfne Hvf Hb Hbne run filters.
  assert (Hrun : run = (bbox_ <- item_bbox_value py_float conf fuel (Some s) ;;
                        filters bbox_)).
  { unfold run, filters. rewrite <- Hb.
    now apply order_item_of_reaches_bbox with layer_name. }
  assert (Hstep : item_bbox_value py_float conf fuel (Some s) =
                  (parsed_bbox <- _parse_bbox py_float s ;;
                   match bbox_snap_resolution conf with
                   | Some grid_resolution =>
                       b <- snap_bbox_to_grid fuel grid_resolution parsed_bbox ;;
                       Ret (Some b)
                   | None => Ret (Some parsed_bbox)
                   end)).
  { unfold item_bbox_value. apply truthy_Some in Hbne. now rewrite Hbne. }
  assert (Hnot4 : (~ exists fx0 fy0 fx1 fy1, four_floats py_float s fx0 fy0 fx1 fy1) ->
                  run = Raise (ValidationError "bbox" "Invalid numeric values" [])).
  { intro H. rewrite Hrun, Hstep, (_parse_bbox_not_four py_float s H). reflexivity. }
  split; [exact Hnot4|]. split.
  - intros fx0 fy0 fx1 fy1 H4. split.
    + intro H. rewrite Hrun, Hstep, (_parse_bbox_out_of_bounds py_float s _ _ _ _ H4 H).
      reflexivity.
    + intros H parsed.
      rewrite Hrun, Hstep, (_parse_bbox_in_bounds py_float s _ _ _ _ H4 H).
      cbn [bind]. fold parsed.
      destruct (bbox_snap_resolution conf) as [res|]; [|reflexivity].
      destruct (snap_bbox_to_grid fuel res parsed); reflexivity.
  - intros ->. apply Hnot4.
    intros (fx0 & fy0 & fx1 & fy1 & a & b & c & d & Hs & _). discriminate Hs.
Qed.

(** An exposure item with an in-range box and a half-degree grid. *)
Lemma bbox_validation_half_degree :
  order_item_of decimal_float decimal_int (sample_conf (Some (1 # 2)%Q)) 1000
    (sample_item (Some "10.3,20.7,15.1,25.2"))
  = (b <- snap_bbox_to_grid 1000 (1 # 2) sample_bbox ;;
     item_filters decimal_int (sample_conf (Some (1 # 2)%Q))
       (sample_item (Some "10.3,20.7,15.1,25.2"))
       "exposure" "exposure:res1" "geotiff" (Some b)).
Proof.
  refine (proj2 (proj1 (proj2
    (bbox_validation decimal_float decimal_int (sample_conf (Some (1 # 2)%Q)) 1000
       (sample_item (Some "10.3,20.7,15.1,25.2"))
       "exposure:res1" "exposure" "res1" "GeoTIFF" "10.3,20.7,15.1,25.2"
       _ _ _ _ _ _ _ _))
    (Finite (103 # 10)) (Finite (207 # 10)) (Finite (151 # 10)) (Finite (252 # 10)) _) _);
    try reflexivity; try discriminate.
  - exists "10.3", "20.7", "15.1", "25.2". repeat split; reflexivity.
  - exists (103 # 10)%Q, (207 # 10)%Q, (151 # 10)%Q, (252 # 10)%Q.
    repeat split; try reflexivity; try (vm_compute; discriminate).
Defined.

(** C8.  Let [key] be ['vulnerabilityFormat'] when the collection is
    ['vulnerability'] and ['format'] for every other collection, and let
    [whitelist] be the choices configured under [key].  Then
    [_validate_format] accepts the format token exactly when it belongs to
    [whitelist], and otherwise raises a [ValidationError] on [format]. *)
Theorem format_whitelist (conf : Settings)
  (format_str collection key : string) (whitelist : list string) :
  (collection = "vulnerability" -> key = "vulnerabilityFormat") ->
  (collection <> "vulnerability" -> key = "format") ->
  configured_whitelist conf key whitelist ->
  (_validate_format conf format_str collection = Ret tt
   <-> In format_str whitelist)
  /\ (~ In format_str whitelist ->
      _validate_format conf format_str collection
      = Raise (ValidationError "format" "invalid value" [])).
Proof.
  intros Hv Ho Hw.
  assert (Hkey : key = option_name collection).
  { destruct (string_dec collection "vulnerability") as [E|E].
    - rewrite (Hv E), E. reflexivity.
    - rewrite (Ho E). symmetry. now apply option_name_other. }
  rewrite Hkey in Hw.
  rewrite (_validate_format_whitelist conf format_str collection whitelist Hw).
  destruct (str_in format_str whitelist) eqn:E.
  - apply str_in_In in E. split; [tauto | contradiction].
  - assert (Hn : ~ In format_str whitelist).
    { intro H. apply str_in_In in H. congruence. }
    split; [split; [discriminate | contradiction] | reflexivity].
Qed.

(** The format [geotiff] for an exposure layer. *)
Lemma format_whitelist_exposure_geotiff :
  (_validate_format (sample_conf None) "geotiff" "exposure" = Ret tt
   <-> In "geotiff" ["geotiff"; "shapefile"])
  /\ (~ In "geotiff" ["geotiff"; "shapefile"] ->
      _validate_format (sample_conf None) "geotiff" "exposure"
      = Raise (ValidationError "format" "invalid value" [])).
Proof.
  apply (format_whitelist (sample_conf None) "geotiff" "exposure" "format"
           ["geotiff"; "shapefile"]).
  - discriminate.
  - reflexivity.
  - exists [], (mkOption "format" ["geotiff"; "shapefile"]),
      [mkOption "vulnerabilityFormat" ["csv"]].
    repeat split; try reflexivity. intros p [].
Defined.

(** C10.  When [to_internal_value] accepts a request, every validated
    item stores the lowercased format and the lowercased category tokens
    of its request item: no ASCII capital occurs in them, the stored
    format is the token that passed the whitelist check, every stored
    category token matched the configured mapping, and the request with
    its formats and categories lowercased validates to the same result. *)
Theorem validated_tokens_are_lowercase
  (py_float : string -> option pyfloat) (py_int : string -> option Z)
  (conf : Settings) (fuel : nat) (data : RequestData) (v : Validated) :
  to_internal_value py_float py_int conf fuel data = Ret v ->
  (exists items,
      data_order_items data = Some items
      /\ Forall2 (stored_lowercase conf) items (order_items v))
  /\ to_internal_value py_float py_int conf fuel (lower_data data) = Ret v.
Proof.
  intro H. split; [|now rewrite to_internal_value_lower].
  unfold to_internal_value in H.
  destruct (data_order_items data) as [[|item rest]|]; try discriminate.
  destruct (items_loop py_float py_int conf fuel (item :: rest) []) as [ois| |] eqn:E;
    cbn [bind] in H; try discriminate.
  injection H as <-. cbn [order_items].
  destruct (items_loop_stored py_float py_int conf fuel _ _ _ E) as (ois' & -> & HF).
  exists (item :: rest). split; [reflexivity | exact HF].
Qed.

(** A request with the format [GeoTIFF] and mixed-case categories. *)
Lemma validated_tokens_are_lowercase_sample :
  (exists items,
      data_order_items (mkRequestData (Some [sample_item None]) None) = Some items
      /\ Forall2 (stored_lowercase (sample_conf None)) items
           [mkOrderItem "exposure:res1" "geotiff" None
              (Some ["structural:concrete"; "structural:wood"]) None])
  /\ to_internal_value decimal_float decimal_int (sample_conf None) 0
       (lower_data (mkRequestData (Some [sample_item None]) None))
     = Ret (mkValidated
              [mkOrderItem "exposure:res1" "geotiff" None
                 (Some ["structural:concrete"; "structural:wood"]) None]
              None).
Proof.
  apply (validated_tokens_are_lowercase decimal_float decimal_int
           (sample_conf None) 0
           (mkRequestData (Some [sample_item None]) None)
           (mkValidated
              [mkOrderItem "exposure:res1" "geotiff" None
                 (Some ["structural:concrete"; "structural:wood"]) None]
              None)).
  reflexivity.
Defined.

(** * Further properties of the code *)

Open Scope Q_scope.
Open Scope list_scope.

(** ** snap_value *)



Lemma snap_value_cases (value : Q) (grid : list Q) :
  (grid = [] /\ snap_value value grid = Raise ValueError)
  \/ (exists m,
         py_max grid = Ret m
         /\ (((forall x, In x grid -> m + 1 <= Qabs (value - x))
              /\ snap_value value grid = Raise (could_not_snap value))
             \/ (exists s, In s grid /\ Qabs (value - s) < m + 1
                           /\ snap_value value grid = Ret s))).
Proof.
  destruct grid as [|x rest]; [left; split; reflexivity|].
  right. destruct (py_max_nonempty (x :: rest)) as [m Em]; [discriminate|].
  exists m. split; [exact Em|].
  unfold snap_value. rewrite Em. cbn [bind].
  destruct (snap_loop_spec value (x :: rest) None (m + 1))
    as [[Hr Hall]|(it & l1 & l2 & Hr & Hg & Hlt & _ & _)]; rewrite Hr.
  - left. split; [exact Hall | reflexivity].
  - right. exists it.
    assert (Hin : In it (x :: rest)) by (rewrite Hg; apply in_elt).
    rewrite (py_in_In it _ Hin). auto.
Qed.


(** ** enlarge_coordinate *)

Lemma py_index_member (s : Q) (grid : list Q) :
  In s grid ->
  exists i, py_index s grid = Ret (Z.of_nat i) /\ (i < List.length grid)%nat.
Proof.
  induction grid as [|y rest IH]; intros Hin; [destruct Hin|].
  cbn [py_index]. destruct (Qeq_bool y s) eqn:E.
  - exists 0%nat. split; [reflexivity | simpl; lia].
  - destruct Hin as [->|Hin].
    + assert (Qeq_bool s s = true) by (apply Qeq_bool_iff; reflexivity). congruence.
    + destruct (IH Hin) as (i & Hi & Hlt). exists (S i).
      rewrite Hi. cbn [bind]. split; [f_equal; lia | simpl; lia].
Qed.

Lemma snap_value_member_of (value : Q) (grid : list Q) (s : Q) :
  snap_value value grid = Ret s -> In s grid.
Proof.
  intro H. destruct (snap_value_sound _ _ _ H) as (l1 & l2 & Hg & _).
  rewrite Hg. apply in_elt.
Qed.

Lemma enlarge_coordinate_cases (value : Q) (grid : list Q) (floor : bool) :
  (exists g, enlarge_coordinate value grid floor = Ret g /\ In g grid)
  \/ (grid = [] /\ enlarge_coordinate value grid floor = Raise ValueError)
  \/ (grid <> [] /\ enlarge_coordinate value grid floor = Raise (could_not_snap value)).
Proof.
  unfold enlarge_coordinate.
  destruct (snap_value_cases value grid)
    as [[-> E]|(m & Em & [[_ E]|(s & Hin & _ & E)])]; rewrite E; cbn [bind].
  - right. left. auto.
  - right. right. split; [|reflexivity]. intros ->. discriminate.
  - left. destruct (py_index_member s grid Hin) as (i & Hi & _).
    rewrite Hi. cbn [bind].
    destruct floor.
    + destruct (except_IndexError_getitem grid (Z.of_nat i - 1) s Hin) as (x & Ex & Hx).
      rewrite Ex. cbn [bind]. eexists. split; [reflexivity|].
      destruct (Qle_bool s value); assumption.
    + destruct (except_IndexError_getitem grid (Z.of_nat i + 1) s Hin) as (x & Ex & Hx).
      rewrite Ex. cbn [bind]. eexists. split; [reflexivity|].
      destruct (Qle_bool value s); assumption.
Qed.

Lemma enlarge_coordinate_outcomes_of (value : Q) (grid : list Q) (floor : bool) :
  (exists g, enlarge_coordinate value grid floor = Ret g /\ In g grid)
  \/ (grid = [] /\ enlarge_coordinate value grid floor = Raise ValueError)
  \/ (grid <> [] /\ snap_value value grid = Raise (could_not_snap value)
      /\ enlarge_coordinate value grid floor = Raise (could_not_snap value)).
Proof.
  destruct (enlarge_coordinate_cases value grid floor) as [H|[H|[Hne H]]]; auto.
  right. right. split; [exact Hne|]. split; [|exact H].
  unfold enlarge_coordinate in H.
  destruct (snap_value_cases value grid)
    as [[-> _]|(m & _ & [[_ E]|(s & Hin & _ & E)])]; [congruence | exact E |].
  exfalso. rewrite E in H. cbn [bind] in H.
  destruct (py_index_member s grid Hin) as (i & Hi & _).
  rewrite Hi in H. cbn [bind] in H.
  destruct floor.
  - destruct (except_IndexError_getitem grid (Z.of_nat i - 1) s Hin) as (x & Ex & _).
    rewrite Ex in H. discriminate.
  - destruct (except_IndexError_getitem grid (Z.of_nat i + 1) s Hin) as (x & Ex & _).
    rewrite Ex in H. discriminate.
Qed.

(** X3.  On any grid, sorted or not, and in both directions,
    [enlarge_coordinate] returns a value of the grid or fails the way
    [snap_value] does ([ValueError] on the empty grid, [RuntimeError]
    when nothing could be snapped): the [IndexError] of the neighbour
    lookup never escapes, and [grid.index] always finds the snapped
    value. *)
Theorem enlarge_coordinate_outcomes (value : Q) (grid : list Q) (floor : bool) :
  (exists g, enlarge_coordinate value grid floor = Ret g /\ In g grid)
  \/ (grid = [] /\ enlarge_coordinate value grid floor = Raise ValueError)
  \/ (grid <> [] /\ snap_value value grid = Raise (could_not_snap value)
      /\ enlarge_coordinate value grid floor = Raise (could_not_snap value)).
Proof.
  exact (enlarge_coordinate_outcomes_of value grid floor).
Qed.

Lemma sorted_member_unique (grid : list Q) (s g : Q) :
  StronglySorted Qlt grid -> In s grid -> In g grid -> s == g -> s = g.
Proof.
  intros Hs Hin1 Hin2 E.
  destruct (In_nth _ _ 0 Hin1) as (i & Hi & <-).
  destruct (In_nth _ _ 0 Hin2) as (j & Hj & <-).
  destruct (Nat.lt_trichotomy i j) as [H|[->|H]]; [|reflexivity|].
  - pose proof (sorted_nth_lt grid Hs i j H Hj). lra.
  - pose proof (sorted_nth_lt grid Hs j i H Hi). lra.
Qed.

Lemma snap_value_positive_start (value : Q) (grid : list Q) (s : Q) :
  snap_value value grid = Ret s -> exists m, py_max grid = Ret m /\ 0 < m + 1.
Proof.
  intro H.
  destruct (snap_value_cases value grid)
    as [[_ E]|(m & Em & [[_ E]|(s' & _ & Hlt & _)])]; try congruence.
  exists m. split; [exact Em|].
  pose proof (Qabs_nonneg (value - s')). lra.
Qed.

Lemma enlarge_coordinate_fixed (grid : list Q) (g m : Q) (floor : bool) :
  StronglySorted Qlt grid -> In g grid ->
  py_max grid = Ret m -> 0 < m + 1 ->
  enlarge_coordinate g grid floor = Ret g.
Proof.
  intros Hs Hin Em Hpos.
  destruct (snap_value_member g grid m Hin Em Hpos) as (s & Es & Heq).
  assert (Hsg : s = g).
  { apply (sorted_member_unique grid); auto. eapply snap_value_member_of; eauto. }
  subst s. unfold enlarge_coordinate. rewrite Es. cbn [bind].
  destruct (py_index_member g grid Hin) as (i & Hi & _). rewrite Hi. cbn [bind].
  assert (Hle : Qle_bool g g = true) by (apply Qle_bool_iff; lra).
  destruct floor.
  - destruct (except_IndexError_getitem grid (Z.of_nat i - 1) g Hin) as (x & Ex & _).
    rewrite Ex. cbn [bind]. now rewrite Hle.
  - destruct (except_IndexError_getitem grid (Z.of_nat i + 1) g Hin) as (x & Ex & _).
    rewrite Ex. cbn [bind]. now rewrite Hle.
Qed.

(** X4.  A value of a strictly ascending grid is its own enlargement, in
    both directions, as soon as [max(grid) + 1] is positive. *)
Theorem enlarge_coordinate_grid_value (grid : list Q) (g m : Q) (floor : bool) :
  StronglySorted Qlt grid -> In g grid ->
  py_max grid = Ret m -> 0 < m + 1 ->
  enlarge_coordinate g grid floor = Ret g
  /\ enlarge_coordinate g grid (negb floor) = Ret g.
Proof.
  intros Hs Hin Em Hpos. split; now apply enlarge_coordinate_fixed with m.
Qed.

(** The value 1 of the grid 0, 1, 2. *)
Lemma enlarge_coordinate_grid_value_one :
  enlarge_coordinate 1 [0; 1; 2] true = Ret 1
  /\ enlarge_coordinate 1 [0; 1; 2] (negb true) = Ret 1.
Proof.
  apply (enlarge_coordinate_grid_value [0; 1; 2] 1 2 true).
  - repeat constructor; reflexivity.
  - right. left. reflexivity.
  - reflexivity.
  - reflexivity.
Defined.




(** ** generate_1d_grid and snap_bbox_to_grid *)

(** X6.  When [start] is above [end_] the grid is empty, whatever the
    sign of the (non-zero) resolution, and snapping or enlarging any value
    on it fails with the [ValueError] of [max] on an empty list. *)
Theorem generate_1d_grid_empty (fuel : nat) (start end_ r value : Q) (floor : bool) :
  end_ < start -> ~ r == 0 -> (1 <= fuel)%nat ->
  generate_1d_grid fuel start end_ r = Ret []
  /\ snap_value value [] = Raise ValueError
  /\ enlarge_coordinate value [] floor = Raise ValueError.
Proof.
  intros Hlt Hr Hfuel. split; [|split; reflexivity].
  unfold generate_1d_grid.
  apply Qeq_bool_false in Hr. rewrite Hr.
  destruct fuel as [|fuel]; [lia|]. cbn [count_loop].
  apply Qlt_bool_iff in Hlt. now rewrite Hlt.
Qed.

(** From 5 down to 3 with a negative step. *)
Lemma generate_1d_grid_empty_descending :
  generate_1d_grid 1 5 3 (-1) = Ret []
  /\ snap_value 4 [] = Raise ValueError
  /\ enlarge_coordinate 4 [] true = Raise ValueError.
Proof.
  apply (generate_1d_grid_empty 1 5 3 (-1) 4 true).
  - reflexivity.
  - discriminate.
  - lia.
Defined.

(** X7.  With a resolution that is zero or negative [snap_bbox_to_grid]
    returns no box for any input: zero raises the zero-resolution
    [RuntimeError], a negative one keeps the longitude loop running for
    every iteration budget. *)
Theorem snap_bbox_to_grid_bad_resolution (fuel : nat) (r : Q) (b : BBox) :
  r <= 0 ->
  snap_bbox_to_grid fuel r b =
  (if Qeq_bool r 0 then Raise zero_resolution else OutOfFuel)
  /\ forall b', snap_bbox_to_grid fuel r b <> Ret b'.
Proof.
  intro Hr.
  assert (E : snap_bbox_to_grid fuel r b =
              (if Qeq_bool r 0 then Raise zero_resolution else OutOfFuel)).
  { unfold snap_bbox_to_grid, generate_1d_grid.
    destruct (Qeq_bool r 0) eqn:Ez; [reflexivity|].
    apply Qeq_bool_false in Ez.
    rewrite count_loop_diverges by lra. reflexivity. }
  split; [exact E|]. intros b'. rewrite E.
  destruct (Qeq_bool r 0); discriminate.
Qed.

(** The resolution -1/2. *)
Lemma snap_bbox_to_grid_bad_resolution_negative_half :
  snap_bbox_to_grid 2000 (- (1 # 2)) sample_bbox =
  (if Qeq_bool (- (1 # 2)) 0 then Raise zero_resolution else OutOfFuel)
  /\ forall b', snap_bbox_to_grid 2000 (- (1 # 2)) sample_bbox <> Ret b'.
Proof.
  apply (snap_bbox_to_grid_bad_resolution 2000 (- (1 # 2)) sample_bbox).
  discriminate.
Defined.

(** X8.  Snapping is idempotent: for a positive resolution, a box that
    [snap_bbox_to_grid] returned is returned unchanged when it is snapped
    again, so requests that snap to the same box stay on it. *)
Theorem snap_bbox_to_grid_idempotent (fuel : nat) (r : Q) (b b' : BBox) :
  0 < r ->
  snap_bbox_to_grid fuel r b = Ret b' ->
  snap_bbox_to_grid fuel r b' = Ret b'.
Proof.
  intros Hr H. unfold snap_bbox_to_grid in *.
  destruct (steps_between_bounds (-180) 180 r ltac:(lra) Hr) as [Hxlo Hxhi].
  destruct (steps_between_bounds (-90) 90 r ltac:(lra) Hr) as [Hylo Hyhi].
  rewrite <- iter_add_closed in Hxlo, Hxhi, Hylo, Hyhi.
  destruct (generate_1d_grid_arith_or_out (-180) 180 r _ fuel Hr Hxlo Hxhi) as [Ex|Ex];
    rewrite Ex in *; cbn [bind] in *; [|discriminate].
  destruct (generate_1d_grid_arith_or_out (-90) 90 r _ fuel Hr Hylo Hyhi) as [Ey|Ey];
    rewrite Ey in *; cbn [bind] in *; [|discriminate].
  set (gx := arith (-180) r (S (steps_between (-180) 180 r))) in *.
  set (gy := arith (-90) r (S (steps_between (-90) 90 r))) in *.
  assert (Sx : StronglySorted Qlt gx) by now apply arith_sorted.
  assert (Sy : StronglySorted Qlt gy) by now apply arith_sorted.
  destruct (enlarge_coordinate (x0 b) gx true) as [nx0| |] eqn:E1; cbn [bind] in H; try discriminate.
  destruct (enlarge_coordinate (y0 b) gy true) as [ny0| |] eqn:E2; cbn [bind] in H; try discriminate.
  destruct (enlarge_coordinate (x1 b) gx false) as [nx1| |] eqn:E3; cbn [bind] in H; try discriminate.
  destruct (enlarge_coordinate (y1 b) gy false) as [ny1| |] eqn:E4; cbn [bind] in H; try discriminate.
  injection H as <-. cbn [x0 y0 x1 y1].
  assert (Hin : forall v g fl x, enlarge_coordinate v g fl = Ret x -> In x g).
  { intros v g fl x E.
    destruct (enlarge_coordinate_cases v g fl) as [(g' & E' & Hg)|[[_ E']|[_ E']]];
      rewrite E in E'; [injection E' as <-; exact Hg | discriminate | discriminate]. }
  destruct (enlarge_coordinate_snapped _ _ _ _ E1) as [sx Esx].
  destruct (enlarge_coordinate_snapped _ _ _ _ E2) as [sy Esy].
  destruct (snap_value_positive_start _ _ _ Esx) as (mx & Emx & Hmx).
  destruct (snap_value_positive_start _ _ _ Esy) as (my & Emy & Hmy).
  rewrite (enlarge_coordinate_fixed gx nx0 mx true Sx (Hin _ _ _ _ E1) Emx Hmx).
  cbn [bind].
  rewrite (enlarge_coordinate_fixed gy ny0 my true Sy (Hin _ _ _ _ E2) Emy Hmy).
  cbn [bind].
  rewrite (enlarge_coordinate_fixed gx nx1 mx false Sx (Hin _ _ _ _ E3) Emx Hmx).
  cbn [bind].
  rewrite (enlarge_coordinate_fixed gy ny1 my false Sy (Hin _ _ _ _ E4) Emy Hmy).
  reflexivity.
Qed.

(** The box (0, 0, 179, 0) on the grid of resolution 7. *)
Lemma snap_bbox_to_grid_idempotent_resolution_7 :
  snap_bbox_to_grid 100 7 (mkBBox (-5) (-6) 177 1) = Ret (mkBBox (-5) (-6) 177 1).
Proof.
  apply (snap_bbox_to_grid_idempotent 100 7 (mkBBox 0 0 179 0)).
  - reflexivity.
  - vm_compute. reflexivity.
Defined.

(** ** The validators of one item *)

Open Scope string_scope.
Open Scope list_scope.

Lemma partition_spec (sep : ascii) (s : string) :
  forall h t, partition sep s = (h, t) ->
    has_char sep h = false
    /\ ((has_char sep s = true /\ s = (h ++ String sep t)%string)
        \/ (has_char sep s = false /\ h = s /\ t = "")).
Proof.
  induction s as [|c s IH]; intros h t H.
  - simpl in H. injection H as <- <-. split; [reflexivity|]. right. auto.
  - cbn [partition] in H. destruct (Ascii.eqb c sep) eqn:E.
    + injection H as <- <-. apply Ascii.eqb_eq in E. subst c.
      split; [reflexivity|]. left. cbn [has_char]. rewrite Ascii.eqb_refl. auto.
    + destruct (partition sep s) as [h' t'] eqn:Ep. injection H as <- <-.
      destruct (IH h' t' eq_refl) as [Hh Hcase]. cbn [has_char]. rewrite E, Hh.
      split; [reflexivity|].
      destruct Hcase as [[Hs ->]|[Hs [-> ->]]].
      * left. cbn [orb]. split; [exact Hs | reflexivity].
      * right. cbn [orb]. auto.
Qed.

Section ValidatorOutcomes.

Variable py_float : string -> option pyfloat.
Variable py_int : string -> option Z.
Variable conf : Settings.

(** X9.  [_validate_layer] accepts a layer exactly when the text before
    its first colon is a member of [DatasetType]; the accepted collection
    holds no colon, and the layer is [collection:layer_name], or the bare
    collection with an empty layer name when it holds no colon at all.
    Every other layer raises a [ValidationError] on [layer]. *)
Theorem validate_layer_outcomes (layer_str : string) :
  (exists c n,
      _validate_layer conf layer_str = Ret (c, n)
      /\ In c (DatasetType_members conf)
      /\ has_char ":" c = false
      /\ ((has_char ":" layer_str = true /\ layer_str = (c ++ String ":" n)%string)
          \/ (has_char ":" layer_str = false /\ layer_str = c /\ n = "")))
  \/ (_validate_layer conf layer_str
      = Raise (ValidationError "layer" "invalid collection" [])
      /\ ~ In (fst (partition ":" layer_str)) (DatasetType_members conf)).
Proof.
  unfold _validate_layer.
  destruct (partition ":" layer_str) as [c n] eqn:Ep.
  destruct (partition_spec ":" layer_str c n Ep) as [Hc Hcase].
  destruct (str_in c (DatasetType_members conf)) eqn:E; cbn [negb fst].
  - left. exists c, n. apply str_in_In in E.
    repeat split; try assumption.
    destruct Hcase as [[H1 H2]|[H1 [H2 H3]]]; [left | right]; auto.
  - right. split; [reflexivity|]. intro H. apply str_in_In in H. congruence.
Qed.

(** X10.  When no configured option carries the name looked up for the
    collection, [_validate_format] raises [IndexError] for every format
    token: a missing configuration entry is not reported as a
    [ValidationError]. *)
Theorem validate_format_unconfigured (format_str collection_ : string) :
  (forall o, In o (OSEOSERVER_PROCESSING_OPTIONS conf) ->
             name o <> option_name collection_) ->
  _validate_format conf format_str collection_ = Raise IndexError.
Proof.
  intro H. unfold _validate_format.
  assert (E : filter (fun i => String.eqb (name i) (option_name collection_))
                     (OSEOSERVER_PROCESSING_OPTIONS conf) = []).
  { induction (OSEOSERVER_PROCESSING_OPTIONS conf) as [|o rest IH]; [reflexivity|].
    cbn [filter].
    assert (Eo : String.eqb (name o) (option_name collection_) = false).
    { apply String.eqb_neq. apply H. now left. }
    rewrite Eo. apply IH. intros o' Ho'. apply H. now right. }
  rewrite E. reflexivity.
Qed.

Lemma ints_of_cases (raw : list string) :
  (exists ns, ints_of py_int raw = Ret ns
              /\ Forall2 (fun i n => py_int i = Some n) raw ns)
  \/ (ints_of py_int raw = Raise ValueError
      /\ exists i, In i raw /\ py_int i = None).
Proof.
  induction raw as [|i rest IH].
  - left. exists []. split; [reflexivity | constructor].
  - cbn [ints_of]. destruct (py_int i) as [n|] eqn:Ei.
    + destruct IH as [(ns & E & HF)|(E & j & Hj & Hn)]; rewrite E; cbn [bind].
      * left. exists (n :: ns). split; [reflexivity | now constructor].
      * right. split; [reflexivity|]. exists j. split; [now right | exact Hn].
    + right. split; [reflexivity|]. exists i. split; [now left | exact Ei].
Qed.

(** X11.  On event ids given as a list of strings, [_parse_event_ids]
    returns the integers read from them, one per identifier and in their
    order, when [int] reads every one of them; when one of the strings is
    not an integer it raises a [ValidationError] on [event_ids]. *)
Theorem parse_event_ids_outcomes (raw_event_ids : list string) :
  (exists ns,
      _parse_event_ids py_int raw_event_ids = Ret ns
      /\ Forall2 (fun i n => py_int i = Some n) raw_event_ids ns)
  \/ (_parse_event_ids py_int raw_event_ids
      = Raise (ValidationError "event_ids" "Invalid values" [])
      /\ exists i, In i raw_event_ids /\ py_int i = None).
Proof.
  unfold _parse_event_ids.
  destruct (ints_of_cases raw_event_ids) as [(ns & E & HF)|(E & Hex)]; rewrite E.
  - left. exists ns. split; [reflexivity | exact HF].
  - right. split; [reflexivity | exact Hex].
Qed.



End ValidatorOutcomes.

(** An exposure collection without the vulnerability option. *)
Lemma validate_format_unconfigured_vulnerability :
  _validate_format
    (mkSettings [mkOption "format" ["geotiff"]] [] None ["vulnerability"])
    "csv" "vulnerability" = Raise IndexError.
Proof.
  apply (validate_format_unconfigured
           (mkSettings [mkOption "format" ["geotiff"]] [] None ["vulnerability"])
           "csv" "vulnerability").
  intros o [<-|[]]. discriminate.
Defined.

(** ** The bounding box of an item *)

Open Scope Q_scope.

Lemma snap_bbox_to_grid_dividing_returns (r : Q) (k fuel : nat) (b : BBox) :
  Qof_nat k * r == 180 ->
  (2 * k + 2 <= fuel)%nat ->
  in_world b ->
  exists b', snap_bbox_to_grid fuel r b = Ret b'.
Proof.
  intros Hk Hfuel ((Hx0l & Hx0h) & (Hx1l & Hx1h) & (Hy0l & Hy0h) & (Hy1l & Hy1h)).
  assert (Ex := x_grid_dividing r k Hk fuel Hfuel).
  assert (Ey := y_grid_dividing r k Hk fuel ltac:(lia)).
  unfold snap_bbox_to_grid. rewrite Ex, Ey. cbn [bind].
  assert (Hstep : forall v g fl, (exists s, snap_value v g = Ret s) ->
                                 exists x, enlarge_coordinate v g fl = Ret x).
  { intros v g fl [s Es].
    destruct (enlarge_coordinate_outcomes_of v g fl)
      as [(x & E & _)|[[Hnil _]|(_ & Es' & _)]].
    - eauto.
    - subst g. unfold snap_value in Es. cbn [py_max bind] in Es. discriminate Es.
    - rewrite Es in Es'. discriminate Es'. }
  destruct (Hstep (x0 b) _ true (snap_x_returns r k Hk (x0 b) Hx0l Hx0h)) as [a1 E1].
  destruct (Hstep (y0 b) _ true (snap_y_returns r k Hk (y0 b) Hy0l Hy0h)) as [a2 E2].
  destruct (Hstep (x1 b) _ false (snap_x_returns r k Hk (x1 b) Hx1l Hx1h)) as [a3 E3].
  destruct (Hstep (y1 b) _ false (snap_y_returns r k Hk (y1 b) Hy1l Hy1h)) as [a4 E4].
  rewrite E1, E2, E3, E4. cbn [bind]. eauto.
Qed.

Lemma dividing_grid_tops (r : Q) (k fuel : nat) :
  Qof_nat k * r == 180 ->
  (2 * k + 2 <= fuel)%nat ->
  exists gx gy,
    generate_1d_grid fuel (-180) 180 r = Ret gx
    /\ generate_1d_grid fuel (-90) 90 r = Ret gy
    /\ last gx 0 == 180 /\ last gy 0 == 90.
Proof.
  intros Hk Hfuel.
  exists (arith (-180) r (S (2 * k))), (arith (-90) r (S k)).
  split; [now apply x_grid_dividing|].
  split; [apply (y_grid_dividing r k Hk); lia|].
  rewrite !arith_snoc, !last_last, !iter_add_closed, (Qof_nat_double k).
  split; nra.
Qed.

Lemma _parse_bbox_cases (py_float : string -> option pyfloat) (s : string) :
  (exists parsed, _parse_bbox py_float s = Ret parsed /\ in_world parsed)
  \/ _parse_bbox py_float s = Raise invalid_numeric
  \/ _parse_bbox py_float s = Raise invalid_values.
Proof.
  unfold _parse_bbox.
  destruct (unpack_floats_cases py_float (split "," s))
    as [(fx0 & fy0 & fx1 & fy1 & a & b & c & d & _ & _ & _ & _ & _ & E)|E];
    rewrite E; cbn [except_ValueError bind]; [|right; left; reflexivity].
  destruct ((in_range (-180) 180 fx0 && in_range (-180) 180 fx1)
            && (in_range (-90) 90 fy0 && in_range (-90) 90 fy1))%bool eqn:Eb;
    cbn [negb]; [|right; right; reflexivity].
  left. eexists. split; [reflexivity|].
  apply in_bounds_iff in Eb.
  destruct Eb as (qx0 & qy0 & qx1 & qy1 & -> & -> & -> & -> & H1 & H2 & H3 & H4).
  unfold in_world. cbn [finite_part x0 y0 x1 y1]. tauto.
Qed.

(** X13.  What [_parse_bbox] returns is always a box in range (x in
    [-180, 180], y in [-90, 90]); and with a configured resolution that
    is an integer or a multiple [m / 2^j] of a power of two ([j <= 40],
    so that the grid values are computed without rounding) and of which
    180 is a whole multiple, the bounding box of an item is either
    rejected with a [ValidationError] on [bbox] or stored as a box that
    contains the parsed one: the snap itself never fails. *)
Theorem item_bbox_value_dividing
  (py_float : string -> option pyfloat) (conf : Settings)
  (r : Q) (m : Z) (j k fuel : nat) (s : string) :
  bbox_snap_resolution conf = Some r ->
  r = dyadic j m -> (j <= 40)%nat ->
  Qof_nat k * r == 180 ->
  (2 * k + 2 <= fuel)%nat ->
  s <> ""%string ->
  (exists t, item_bbox_value py_float conf fuel (Some s)
             = Raise (ValidationError "bbox" t []))
  \/ (exists parsed b',
         _parse_bbox py_float s = Ret parsed
         /\ in_world parsed
         /\ item_bbox_value py_float conf fuel (Some s) = Ret (Some b')
         /\ encloses b' parsed).
Proof.
  intros Hres _ _ Hk Hfuel Hne. unfold item_bbox_value.
  apply truthy_Some in Hne. rewrite Hne, Hres.
  destruct (_parse_bbox_cases py_float s) as [(parsed & E & Hw)|[E|E]];
    rewrite E; cbn [bind]; [|left; unfold invalid_numeric; eauto
                            |left; unfold invalid_values; eauto].
  right.
  destruct (snap_bbox_to_grid_dividing_returns r k fuel parsed Hk Hfuel Hw) as [b' Eb].
  exists parsed, b'. rewrite Eb. cbn [bind].
  split; [reflexivity|]. split; [exact Hw|]. split; [reflexivity|].
  destruct (snap_bbox_to_grid_returned r fuel parsed b' (dividing_pos r k Hk) Hw Eb)
    as (gx & gy & Egx & Egy & _ & C0 & C1 & C2 & C3).
  destruct (dividing_grid_tops r k fuel Hk Hfuel) as (gx' & gy' & Egx' & Egy' & Tx & Ty).
  rewrite Egx in Egx'. injection Egx' as <-.
  rewrite Egy in Egy'. injection Egy' as <-.
  destruct Hw as (_ & (_ & Hx1) & _ & (_ & Hy1)).
  unfold encloses. repeat split; try assumption.
  - apply C2. rewrite Tx. exact Hx1.
  - apply C3. rewrite Ty. exact Hy1.
Qed.

(** A box on the half-degree grid. *)
Lemma item_bbox_value_dividing_half_degree :
  (exists t, item_bbox_value decimal_float (sample_conf (Some (1 # 2))) 1000
               (Some "10.3,20.7,15.1,25.2"%string)
             = Raise (ValidationError "bbox" t []))
  \/ (exists parsed b',
         _parse_bbox decimal_float "10.3,20.7,15.1,25.2" = Ret parsed
         /\ in_world parsed
         /\ item_bbox_value decimal_float (sample_conf (Some (1 # 2))) 1000
              (Some "10.3,20.7,15.1,25.2"%string) = Ret (Some b')
         /\ encloses b' parsed).
Proof.
  apply (item_bbox_value_dividing decimal_float (sample_conf (Some (1 # 2)))
           (1 # 2) 1 1 360 1000 "10.3,20.7,15.1,25.2").
  - reflexivity.
  - reflexivity.
  - lia.
  - reflexivity.
  - lia.
  - discriminate.
Defined.

(** X14.  With a configured resolution that is zero or negative, an
    item whose layer and format pass their checks and whose bbox string
    parses and is in range fails outside the validation errors, before
    its filters are looked at: zero raises the [RuntimeError] of the grid
    generator, a negative resolution never finishes generating the
    grid. *)
Theorem item_bbox_value_bad_resolution
  (py_float : string -> option pyfloat) (py_int : string -> option Z)
  (conf : Settings) (r : Q) (fuel : nat) (item : RequestItem)
  (layer_ collection_ layer_name fmt s : string) (parsed : BBox) :
  item_layer item = Some layer_ -> layer_ <> ""%string ->
  _validate_layer conf layer_ = Ret (collection_, layer_name) ->
  item_format item = Some fmt -> lower fmt <> ""%string ->
  _validate_format conf (lower fmt) collection_ = Ret tt ->
  item_bbox item = Some s -> s <> ""%string ->
  _parse_bbox py_float s = Ret parsed ->
  bbox_snap_resolution conf = Some r ->
  r <= 0 ->
  order_item_of py_float py_int conf fuel item =
  (if Qeq_bool r 0 then Raise zero_resolution else OutOfFuel).
Proof.
  intros Hl Hlne Hvl Hf Hfne Hvf Hb Hne Hp Hres Hr.
  rewrite (order_item_of_reaches_bbox py_float py_int conf fuel item
             layer_ collection_ layer_name fmt Hl Hlne Hvl Hf Hfne Hvf).
  rewrite Hb. unfold item_bbox_value.
  apply truthy_Some in Hne. rewrite Hne, Hp, Hres. cbn [bind].
  unfold snap_bbox_to_grid, generate_1d_grid.
  destruct (Qeq_bool r 0) eqn:Ez; [reflexivity|].
  apply Qeq_bool_false in Ez.
  rewrite count_loop_diverges by lra. reflexivity.
Qed.

(** A configured resolution of zero. *)
Lemma item_bbox_value_bad_resolution_zero :
  order_item_of decimal_float decimal_int (sample_conf (Some 0)) 1000
    (sample_item (Some "10.3,20.7,15.1,25.2"%string)) =
  (if Qeq_bool 0 0 then Raise zero_resolution else OutOfFuel).
Proof.
  apply (item_bbox_value_bad_resolution decimal_float decimal_int
           (sample_conf (Some 0)) 0 1000
           (sample_item (Some "10.3,20.7,15.1,25.2"%string))
           "exposure:res1" "exposure" "res1" "GeoTIFF" "10.3,20.7,15.1,25.2"
           sample_bbox);
    try reflexivity; discriminate.
Defined.

(** ** to_internal_value *)

Open Scope string_scope.
Open Scope list_scope.

Section Intake.

Variable py_float : string -> option pyfloat.
Variable py_int : string -> option Z.
Variable conf : Settings.
Variable fuel : nat.

Lemma items_loop_Ret (items : list RequestItem) :
  forall acc res,
    items_loop py_float py_int conf fuel items acc = Ret res <->
    exists ois,
      res = acc ++ ois
      /\ Forall2 (fun item oi => order_item_of py_float py_int conf fuel item = Ret oi)
                 items ois.
Proof.
  induction items as [|item rest IH]; intros acc res.
  - cbn [items_loop]. split.
    + intro H. injection H as <-. exists []. split; [now rewrite app_nil_r | constructor].
    + intros (ois & -> & HF). inversion HF. now rewrite app_nil_r.
  - cbn [items_loop]. split.
    + intro H.
      destruct (order_item_of py_float py_int conf fuel item) as [oi| |] eqn:E;
        cbn [bind] in H; try discriminate.
      apply IH in H. destruct H as (ois & -> & HF).
      exists (oi :: ois). split; [now rewrite <- app_assoc | now constructor].
    + intros (ois & -> & HF). inversion HF as [|? oi ? ois' E HF']; subst.
      rewrite E. cbn [bind]. apply IH. exists ois'.
      split; [now rewrite <- app_assoc | exact HF'].
Qed.

(** X15.  [to_internal_value] accepts a request exactly when it has at
    least one item and every item validates; the result holds the
    validated items one per request item and in the request's order, and
    the notification e-mail as it was given (or not given). *)
Theorem to_internal_value_accepts (data : RequestData) (v : Validated) :
  to_internal_value py_float py_int conf fuel data = Ret v <->
  exists items,
    data_order_items data = Some items
    /\ items <> []
    /\ Forall2 (fun item oi => order_item_of py_float py_int conf fuel item = Ret oi)
               items (order_items v)
    /\ notification_email v = data_notification_email data.
Proof.
  unfold to_internal_value. split.
  - intro H. destruct (data_order_items data) as [[|item rest]|]; try discriminate.
    destruct (items_loop py_float py_int conf fuel (item :: rest) []) as [ois| |] eqn:E;
      cbn [bind] in H; try discriminate.
    injection H as <-. apply items_loop_Ret in E. destruct E as (ois' & -> & HF).
    exists (item :: rest). repeat split; [discriminate | exact HF].
  - intros (items & -> & Hne & HF & He).
    destruct items as [|item rest]; [congruence|].
    assert (E : items_loop py_float py_int conf fuel (item :: rest) []
                = Ret (order_items v)).
    { apply items_loop_Ret. exists (order_items v). split; [reflexivity | exact HF]. }
    rewrite E. cbn [bind]. rewrite <- He. destruct v; reflexivity.
Qed.

Lemma items_loop_first_failure (pre post : list RequestItem) (bad : RequestItem) (e : exn) :
  Forall (fun item => exists oi, order_item_of py_float py_int conf fuel item = Ret oi) pre ->
  order_item_of py_float py_int conf fuel bad = Raise e ->
  forall acc, items_loop py_float py_int conf fuel (pre ++ bad :: post) acc = Raise e.
Proof.
  intros Hpre Hbad. induction Hpre as [|item pre [oi E] _ IH]; intro acc.
  - cbn [app items_loop]. now rewrite Hbad.
  - cbn [app items_loop]. rewrite E. cbn [bind]. apply IH.
Qed.

(** X16.  Validation stops at the first item that fails: when the items
    before it validate, the request fails with that item's error,
    whatever follows it. *)
Theorem to_internal_value_first_failure
  (data : RequestData) (pre post : list RequestItem) (bad : RequestItem) (e : exn) :
  data_order_items data = Some (pre ++ bad :: post) ->
  Forall (fun item => exists oi, order_item_of py_float py_int conf fuel item = Ret oi) pre ->
  order_item_of py_float py_int conf fuel bad = Raise e ->
  to_internal_value py_float py_int conf fuel data = Raise e.
Proof.
  intros Hd Hpre Hbad. unfold to_internal_value. rewrite Hd.
  destruct (pre ++ bad :: post) as [|x xs] eqn:Ex.
  - destruct pre; discriminate.
  - rewrite <- Ex. rewrite (items_loop_first_failure pre post bad e Hpre Hbad).
    reflexivity.
Qed.

Hypothesis no_snap : bbox_snap_resolution conf = None.
Hypothesis format_configured :
  exists whitelist, configured_whitelist conf "format" whitelist.
Hypothesis vulnerability_configured :
  exists whitelist, configured_whitelist conf "vulnerabilityFormat" whitelist.



End Intake.






(** The same request: the second item fails on its box. *)
Lemma to_internal_value_first_failure_sample :
  to_internal_value decimal_float decimal_int (sample_conf None) 0
    (mkRequestData
       (Some ([sample_item None] ++ sample_item (Some "a,b,c") :: [sample_item None]))
       None)
  = Raise invalid_numeric.
Proof.
  apply (to_internal_value_first_failure decimal_float decimal_int (sample_conf None) 0
           (mkRequestData
              (Some ([sample_item None] ++ sample_item (Some "a,b,c") :: [sample_item None]))
              None)
           [sample_item None] [sample_item None] (sample_item (Some "a,b,c"))
           invalid_numeric).
  - reflexivity.
  - constructor; [|constructor]. eexists. reflexivity.
  - reflexivity.
Defined.

(** ** create *)

Lemma enumerate_items_spec (items : list OrderItem) :
  forall index acc,
    enumerate_items index items acc
    = acc ++ map (fun p => template_item (fst p) (snd p))
                 (combine (seq index (List.length items)) items).
Proof.
  induction items as [|oi rest IH]; intros index acc.
  - cbn. now rewrite app_nil_r.
  - cbn [enumerate_items List.length seq combine map fst snd].
    rewrite IH, <- app_assoc. reflexivity.
Qed.

Lemma map_lower_fixed (cs : list string) :
  Forall (fun c => has_upper c = false) cs -> map lower cs = cs.
Proof.
  assert (Hs : forall s, has_upper s = false -> lower s = s).
  { induction s as [|c s IH]; [reflexivity|]. cbn [has_upper lower].
    intro H. apply orb_false_iff in H. destruct H as [Hc Hr].
    unfold lower_ascii. rewrite Hc, (IH Hr). reflexivity. }
  induction 1 as [|c cs Hc _ IH]; [reflexivity|].
  cbn [map]. now rewrite (Hs c Hc), IH.
Qed.

Lemma template_item_rendered (conf : Settings) (item : RequestItem)
  (oi : OrderItem) (index : nat) :
  stored_lowercase conf item oi ->
  rendered_from conf oi (template_item index oi).
Proof.
  intros (_ & _ & (c & n & Hl & _) & Hcats).
  unfold rendered_from, template_item.
  unfold _validate_layer in Hl.
  destruct (partition ":" (layer oi)) as [c' n'].
  destruct (str_in c' (DatasetType_members conf)) eqn:Ec; cbn [negb] in Hl;
    [|discriminate].
  cbn [product_id collection options options_format options_bbox
       options_taxonomic_categories options_event_ids].
  apply str_in_In in Ec. repeat split; try assumption.
  destruct (taxonomic_categories oi) as [cs|]; [|reflexivity].
  destruct (Hcats cs eq_refl) as [_ HF].
  apply map_lower_fixed. eapply Forall_impl; [|exact HF]. intros a [Ha _]. exact Ha.
Qed.

(** X18.  For data that [to_internal_value] accepted, [create] hands the
    template one item per validated item, in order, numbered [item0],
    [item1], ...; each carries the layer as product id, a collection that
    is a member of [DatasetType], and the validated format, box,
    categories and event ids: lowercasing the categories again changes
    nothing, and absent filters become empty lists. *)
Theorem create_template_items
  (py_float : string -> option pyfloat) (py_int : string -> option Z)
  (conf : Settings) (fuel : nat) (data : RequestData) (v : Validated) :
  to_internal_value py_float py_int conf fuel data = Ret v ->
  Forall2 (rendered_from conf) (order_items v) (template_order_items v)
  /\ map id_ (template_order_items v)
     = map item_id (seq 0 (List.length (order_items v))).
Proof.
  intro H. unfold to_internal_value in H.
  destruct (data_order_items data) as [[|item rest]|]; try discriminate.
  destruct (items_loop py_float py_int conf fuel (item :: rest) []) as [ois| |] eqn:E;
    cbn [bind] in H; try discriminate.
  injection H as <-. cbn [order_items].
  destruct (items_loop_stored py_float py_int conf fuel _ _ _ E) as (ois' & -> & HF).
  cbn [app]. unfold template_order_items. cbn [order_items].
  rewrite enumerate_items_spec. cbn [app].
  clear E. revert HF. generalize (item :: rest) as items. generalize 0%nat as index.
  intros index items HF. revert index.
  induction HF as [|it oi its ois Hst _ IH]; intro index.
  - split; [constructor | reflexivity].
  - cbn [List.length seq combine map fst snd]. destruct (IH (S index)) as [H1 H2].
    split.
    + constructor; [|exact H1]. eapply template_item_rendered; eauto.
    + f_equal; [|exact H2].
      unfold template_item. destruct (partition ":" (layer oi)). reflexivity.
Qed.

(** One exposure item with mixed-case tokens. *)
Lemma create_template_items_sample :
  Forall2 (rendered_from (sample_conf None))
    [mkOrderItem "exposure:res1" "geotiff" None
       (Some ["structural:concrete"; "structural:wood"]) None]
    (template_order_items
       (mkValidated
          [mkOrderItem "exposure:res1" "geotiff" None
             (Some ["structural:concrete"; "structural:wood"]) None]
          None))
  /\ map id_
       (template_order_items
          (mkValidated
             [mkOrderItem "exposure:res1" "geotiff" None
                (Some ["structural:concrete"; "structural:wood"]) None]
             None))
     = map item_id (seq 0 1).
Proof.
  apply (create_template_items decimal_float decimal_int (sample_conf None) 0
           (mkRequestData (Some [sample_item None]) None)
           (mkValidated
              [mkOrderItem "exposure:res1" "geotiff" None
                 (Some ["structural:concrete"; "structural:wood"]) None]
              None)).
  reflexivity.
Defined.

(** ** get_download_url *)

Lemma split_nonempty (sep : ascii) (s : string) : split sep s <> [].
Proof.
  destruct s as [|c s]; cbn [split]; [discriminate|].
  destruct (Ascii.eqb c sep); [discriminate|].
  destruct (split sep s); discriminate.
Qed.

Lemma split_app_sep (sep : ascii) (a b : string) :
  split sep (a ++ String sep b)%string = split sep a ++ split sep b.
Proof.
  induction a as [|c a IH].
  - cbn [append split]. now rewrite Ascii.eqb_refl.
  - cbn [append split]. rewrite IH.
    destruct (Ascii.eqb c sep); [reflexivity|].
    destruct (split sep a) as [|w ws] eqn:E; [now apply split_nonempty in E|].
    reflexivity.
Qed.

Lemma split_no_sep (sep : ascii) (h : string) :
  has_char sep h = false -> split sep h = [h].
Proof.
  induction h as [|c h IH]; [reflexivity|].
  cbn [has_char split]. intro H. apply orb_false_iff in H. destruct H as [Hc Hh].
  rewrite Hc, (IH Hh). reflexivity.
Qed.

Lemma split_parts_no_sep (sep : ascii) (s : string) :
  Forall (fun p => has_char sep p = false) (split sep s).
Proof.
  induction s as [|c s IH]; cbn [split].
  - constructor; [reflexivity | constructor].
  - destruct (Ascii.eqb c sep) eqn:E.
    + constructor; [reflexivity | exact IH].
    + destruct (split sep s) as [|w ws]; [repeat constructor; cbn; now rewrite E|].
      inversion IH; subst. constructor; [|assumption].
      cbn [has_char]. rewrite E. assumption.
Qed.

Lemma split_only_char (sep : ascii) (s : string) :
  only_char sep s = true -> Forall (fun p => p = ""%string) (split sep s).
Proof.
  induction s as [|c s IH]; cbn [only_char split]; intro H.
  - repeat constructor.
  - apply andb_true_iff in H. destruct H as [Hc Hs]. rewrite Hc.
    constructor; [reflexivity | now apply IH].
Qed.

Lemma split_other_char (sep : ascii) (s : string) :
  only_char sep s = false -> Exists (fun p => p <> ""%string) (split sep s).
Proof.
  induction s as [|c s IH]; cbn [only_char split]; intro H; [discriminate|].
  destruct (Ascii.eqb c sep); cbn [andb] in H.
  - apply Exists_cons_tl. now apply IH.
  - destruct (split sep s); apply Exists_cons_hd; discriminate.
Qed.

Lemma py_last_snoc {A : Type} (l : list A) (x : A) : py_last (l ++ [x]) = Ret x.
Proof.
  unfold py_last. rewrite rev_unit. reflexivity.
Qed.

Lemma py_last_cases {A : Type} (l : list A) :
  (l = [] /\ py_last l = Raise IndexError)
  \/ (exists x, In x l /\ py_last l = Ret x).
Proof.
  unfold py_last. destruct (rev l) as [|x r] eqn:E.
  - left. split; [|reflexivity].
    apply (f_equal (@rev A)) in E. now rewrite rev_involutive in E.
  - right. exists x. split; [|reflexivity].
    apply in_rev. rewrite E. now left.
Qed.

(** X19.  The hash of a download is the last non-empty segment of the
    item's URL: for a URL that ends in [/h], or in [/h/], with [h]
    non-empty and free of slashes, [file_hash] is [h] and an available
    item resolves the download URL of [h]; an item that is not available
    has no download URL, whatever its URL. *)
Theorem get_download_url_last_segment
  (reverse : string -> string) (obj : OrderItemObject) (base h : string) :
  h <> ""%string -> has_char "/" h = false ->
  url obj = (base ++ String "/" h)%string
  \/ url obj = (base ++ String "/" (h ++ String "/" ""))%string ->
  file_hash (url obj) = Ret h
  /\ get_download_url reverse obj
     = Ret (if available obj then Some (reverse h) else None).
Proof.
  intros Hne Hh Hurl.
  assert (Hkeep : negb (String.eqb h "") = true).
  { apply negb_true_iff. now apply String.eqb_neq. }
  assert (E : file_hash (url obj) = Ret h).
  { unfold file_hash. destruct Hurl as [-> | ->].
    - rewrite split_app_sep, (split_no_sep "/" h Hh), filter_app.
      cbn [filter]. rewrite Hkeep. apply py_last_snoc.
    - rewrite split_app_sep, split_app_sep, (split_no_sep "/" h Hh), filter_app.
      cbn [split app filter String.eqb negb]. rewrite Hkeep. apply py_last_snoc. }
  split; [exact E|]. unfold get_download_url. rewrite E.
  destruct (available obj); reflexivity.
Qed.

(** A download below [/downloads/]. *)
Lemma get_download_url_last_segment_sample :
  file_hash (url (mkOrderItemObject "exposure:res1" true "http://host/downloads/abc123/"))
  = Ret "abc123"%string
  /\ get_download_url (fun h => ("/api/download/" ++ h)%string)
       (mkOrderItemObject "exposure:res1" true "http://host/downloads/abc123/")
     = Ret (if available
                 (mkOrderItemObject "exposure:res1" true "http://host/downloads/abc123/")
            then Some ("/api/download/" ++ "abc123")%string else None).
Proof.
  apply (get_download_url_last_segment (fun h => ("/api/download/" ++ h)%string)
           (mkOrderItemObject "exposure:res1" true "http://host/downloads/abc123/")
           "http://host/downloads" "abc123").
  - discriminate.
  - reflexivity.
  - right. reflexivity.
Defined.

(** X20.  [file_hash] fails with [IndexError] exactly on a URL made of
    slashes only (the empty URL included), and then an available item has
    no serialization of its download URL; on every other URL it returns a
    non-empty segment without slashes. *)
Theorem file_hash_outcomes (reverse : string -> string) (obj : OrderItemObject) :
  (only_char "/" (url obj) = true
   /\ file_hash (url obj) = Raise IndexError
   /\ (available obj = true -> get_download_url reverse obj = Raise IndexError))
  \/ (only_char "/" (url obj) = false
      /\ exists h, file_hash (url obj) = Ret h
                   /\ h <> ""%string /\ has_char "/" h = false).
Proof.
  unfold get_download_url, file_hash.
  set (segments := filter (fun i => negb (String.eqb i "")) (split "/" (url obj))).
  destruct (only_char "/" (url obj)) eqn:Eo.
  - left. split; [reflexivity|].
    assert (Hnil : segments = []).
    { unfold segments. pose proof (split_only_char "/" _ Eo) as HF.
      induction HF as [|p ps -> _ IH]; [reflexivity | exact IH]. }
    rewrite Hnil. split; [reflexivity|]. intros ->. reflexivity.
  - right. split; [reflexivity|].
    destruct (py_last_cases segments) as [[Hnil _]|(h & Hin & E)].
    + exfalso. pose proof (split_other_char "/" _ Eo) as HE.
      apply Exists_exists in HE. destruct HE as (p & Hp & Hne).
      assert (Hin : In p segments).
      { unfold segments. apply filter_In. split; [exact Hp|].
        apply negb_true_iff. now apply String.eqb_neq. }
      rewrite Hnil in Hin. destruct Hin.
    + exists h. split; [exact E|].
      unfold segments in Hin. apply filter_In in Hin. destruct Hin as [Hp Hk].
      split.
      * apply negb_true_iff in Hk. now apply String.eqb_neq.
      * pose proof (split_parts_no_sep "/" (url obj)) as HF.
        rewrite Forall_forall in HF. now apply HF.
Qed.

(** ** Filters of another collection *)

(** X21.  The filters of another collection are never looked at: for an
    item whose collection is not [exposure] the category string is neither
    checked nor stored, and for one whose collection is not [hazard] the
    same holds of the event ids; the outcome of the item does not depend
    on them. *)
Theorem foreign_filters_ignored
  (py_float : string -> option pyfloat) (py_int : string -> option Z)
  (conf : Settings) (fuel : nat) (item : RequestItem) (layer_ : string)
  (cats : option string) (ids : option (list string)) :
  item_layer item = Some layer_ ->
  (fst (partition ":" layer_) <> "exposure"%string ->
   order_item_of py_float py_int conf fuel
     (with_filters item cats (item_event_ids item))
   = order_item_of py_float py_int conf fuel item)
  /\ (fst (partition ":" layer_) <> "hazard"%string ->
      order_item_of py_float py_int conf fuel
        (with_filters item (item_taxonomic_categories item) ids)
      = order_item_of py_float py_int conf fuel item).
Proof.
  intro Hl.
  assert (Hgen : forall cats' ids',
             (fst (partition ":" layer_) = "exposure"%string ->
              cats' = item_taxonomic_categories item) ->
             (fst (partition ":" layer_) = "hazard"%string ->
              ids' = item_event_ids item) ->
             order_item_of py_float py_int conf fuel (with_filters item cats' ids')
             = order_item_of py_float py_int conf fuel item).
  { intros cats' ids' Hc Hi. unfold order_item_of, with_filters.
    cbn [item_layer item_format item_bbox]. rewrite Hl.
    destruct (negb (truthy (Some layer_))); [reflexivity|].
    unfold _validate_layer.
    destruct (partition ":" layer_) as [c n]. cbn [fst] in Hc, Hi.
    destruct (negb (str_in c (DatasetType_members conf))); cbn [bind fst];
      [reflexivity|].
    destruct (negb (truthy (Some _))); [reflexivity|].
    destruct (_validate_format conf _ c); cbn [bind]; try reflexivity.
    destruct (item_bbox_value py_float conf fuel (item_bbox item)); cbn [bind];
      try reflexivity.
    unfold item_filters. cbn [item_taxonomic_categories item_event_ids].
    destruct (String.eqb c "exposure") eqn:Ee.
    - apply String.eqb_eq in Ee. now rewrite (Hc Ee).
    - destruct (String.eqb c "hazard") eqn:Eh; [|reflexivity].
      apply String.eqb_eq in Eh. now rewrite (Hi Eh). }
  split; intro Hne; apply Hgen; intros; congruence.
Qed.

(** A hazard item that carries a category string. *)
Lemma foreign_filters_ignored_hazard :
  (fst (partition ":" "hazard:flood") <> "exposure"%string ->
   order_item_of decimal_float decimal_int
     (mkSettings [mkOption "format" ["geotiff"]] [] None ["hazard"]) 0
     (with_filters
        (mkRequestItem (Some "hazard:flood"%string) (Some "geotiff"%string) None
           None (Some ["12"%string]))
        (Some "no such category"%string)
        (item_event_ids
           (mkRequestItem (Some "hazard:flood"%string) (Some "geotiff"%string) None
              None (Some ["12"%string]))))
   = order_item_of decimal_float decimal_int
       (mkSettings [mkOption "format" ["geotiff"]] [] None ["hazard"]) 0
       (mkRequestItem (Some "hazard:flood"%string) (Some "geotiff"%string) None
          None (Some ["12"%string])))
  /\ (fst (partition ":" "hazard:flood") <> "hazard"%string ->
      order_item_of decimal_float decimal_int
        (mkSettings [mkOption "format" ["geotiff"]] [] None ["hazard"]) 0
        (with_filters
           (mkRequestItem (Some "hazard:flood"%string) (Some "geotiff"%string) None
              None (Some ["12"%string]))
           (item_taxonomic_categories
              (mkRequestItem (Some "hazard:flood"%string) (Some "geotiff"%string) None
                 None (Some ["12"%string])))
           None)
      = order_item_of decimal_float decimal_int
          (mkSettings [mkOption "format" ["geotiff"]] [] None ["hazard"]) 0
          (mkRequestItem (Some "hazard:flood"%string) (Some "geotiff"%string) None
             None (Some ["12"%string]))).
Proof.
  apply (foreign_filters_ignored decimal_float decimal_int
           (mkSettings [mkOption "format" ["geotiff"]] [] None ["hazard"]) 0
           (mkRequestItem (Some "hazard:flood"%string) (Some "geotiff"%string) None
              None (Some ["12"%string]))
           "hazard:flood" (Some "no such category"%string) None).
  reflexivity.
Defined.

(** * Grids of exact and of rounded steps *)

Open Scope Q_scope.
Open Scope list_scope.

(** ** The grid generator on binary64 steps *)

Lemma float_count_loop_more_fuel (end_ r : float) (grid : list float) :
  forall (fuel : nat) (i : float) (acc : list float),
    Float64.count_loop fuel i end_ r acc = Ret grid ->
    forall extra, Float64.count_loop (fuel + extra) i end_ r acc = Ret grid.
Proof.
  induction fuel as [|fuel IH]; intros i acc H extra; [discriminate H|].
  cbn [Float64.count_loop Nat.add] in *.
  destruct (PrimFloat.ltb end_ i); [exact H | now apply IH].
Qed.

Lemma float_grid_more_fuel (start end_ r : float) (grid : list float) (fuel0 : nat) :
  Float64.generate_1d_grid fuel0 start end_ r = Ret grid ->
  forall fuel, (fuel0 <= fuel)%nat ->
               Float64.generate_1d_grid fuel start end_ r = Ret grid.
Proof.
  unfold Float64.generate_1d_grid. intros H fuel Hf.
  destruct (PrimFloat.eqb r 0); [exact H|].
  replace fuel with (fuel0 + (fuel - fuel0))%nat by lia.
  now apply float_count_loop_more_fuel.
Qed.

(** C4, the claim as stated fails.  On binary64 numbers, from -180 to
    180 in steps of 2.4: [-180 + 150 * 2.4] is 180, within the end, but
    the counter reached by 150 additions is above 180, and the grid that
    every sufficient iteration budget returns has 150 items and ends below
    178, not the 151 items that end on 180. *)
Lemma generate_1d_grid_binary64_stops_short :
  PrimFloat.leb (PrimFloat.add (-180) (PrimFloat.mul 150 (tenths 24))) 180 = true
  /\ exists grid,
      (forall fuel, (151 <= fuel)%nat ->
                    Float64.generate_1d_grid fuel (-180) 180 (tenths 24) = Ret grid)
      /\ List.length grid = 150%nat
      /\ PrimFloat.ltb (last grid 0%float) 178 = true.
Proof.
  split; [vm_compute; reflexivity|].
  destruct (Float64.generate_1d_grid 151 (-180) 180 (tenths 24)) as [grid| |] eqn:E;
    [|vm_compute in E; discriminate E|vm_compute in E; discriminate E].
  exists grid. split; [intros fuel Hf; now apply (float_grid_more_fuel _ _ _ _ 151)|].
  vm_compute in E. injection E as <-.
  split; [reflexivity | vm_compute; reflexivity].
Qed.

(** ** The grid generator on exact steps *)

Lemma pow2_pos (k : nat) : 0 < inject_Z (2 ^ Z.of_nat k).
Proof.
  change 0 with (inject_Z 0). rewrite <- Zlt_Qlt. apply Z.pow_pos_nonneg; lia.
Qed.

Lemma dyadic_plus (k : nat) (a b : Z) : dyadic k a + dyadic k b == dyadic k (a + b).
Proof.
  unfold dyadic. rewrite inject_Z_plus. pose proof (pow2_pos k). field. lra.
Qed.

Lemma dyadic_scale (k j : nat) (m : Z) :
  Qof_nat j * dyadic k m == dyadic k (Z.of_nat j * m).
Proof.
  unfold dyadic, Qof_nat. rewrite inject_Z_mult. pose proof (pow2_pos k). field. lra.
Qed.

Lemma dyadic_le (k : nat) (a b : Z) : (a <= b)%Z <-> dyadic k a <= dyadic k b.
Proof.
  unfold dyadic. pose proof (pow2_pos k) as Hp.
  rewrite Zle_Qle. unfold Qdiv. split; intro H.
  - apply Qmult_le_compat_r; [exact H|]. apply Qlt_le_weak. now apply Qinv_lt_0_compat.
  - apply Qmult_le_r in H; [exact H|]. now apply Qinv_lt_0_compat.
Qed.

Lemma dyadic_lt (k : nat) (a b : Z) : (a < b)%Z <-> dyadic k a < dyadic k b.
Proof.
  unfold dyadic. pose proof (pow2_pos k) as Hp.
  rewrite Zlt_Qlt. unfold Qdiv. split; intro H.
  - apply Qmult_lt_compat_r; [now apply Qinv_lt_0_compat | exact H].
  - apply Qmult_lt_r in H; [exact H|]. now apply Qinv_lt_0_compat.
Qed.

Lemma iter_add_dyadic (k j : nat) (s m : Z) :
  iter_add (dyadic k s) (dyadic k m) j == dyadic k (s + Z.of_nat j * m).
Proof.
  rewrite iter_add_closed, dyadic_scale, dyadic_plus. reflexivity.
Qed.

(** C4, amended.  For [start], [end_] and a resolution that are exactly
    represented on a common scale (integers, or integer multiples
    [s / 2^k], [e / 2^k], [m / 2^k] of one power of two, with the
    numerators from [s] to [e + m] within [2^53] in magnitude, so that no
    addition of the step rounds), with [start <= end_] and a positive
    resolution, [generate_1d_grid] returns, on any iteration budget of at
    least [n + 2] for [n = (e - s) / m] rounded down, the [n + 1] values
    [start + j * resolution], [j = 0 .. n]: strictly ascending, none above
    [end_], the last one the largest value of that form within [end_]. *)
Theorem generate_1d_grid_exact_steps (s e m : Z) (k fuel : nat) :
  (k <= 1000)%nat ->
  (- 2 ^ 53 <= s)%Z -> (e + m <= 2 ^ 53)%Z ->
  (s <= e)%Z -> (0 < m)%Z ->
  (Z.to_nat ((e - s) / m) + 2 <= fuel)%nat ->
  exists grid,
    generate_1d_grid fuel (dyadic k s) (dyadic k e) (dyadic k m) = Ret grid
    /\ List.length grid = S (Z.to_nat ((e - s) / m))
    /\ (forall j, (j <= Z.to_nat ((e - s) / m))%nat ->
                  nth j grid 0 == dyadic k (s + Z.of_nat j * m))
    /\ StronglySorted Qlt grid
    /\ last grid 0 == dyadic k (s + (e - s) / m * m)
    /\ Forall (fun x => x <= dyadic k e) grid
    /\ (forall j : nat, (s + Z.of_nat j * m <= e)%Z ->
                        (j <= Z.to_nat ((e - s) / m))%nat).
Proof.
  intros _ _ _ Hse Hm Hfuel.
  set (q := ((e - s) / m)%Z) in *.
  assert (Hq0 : (0 <= q)%Z) by (apply Z.div_pos; lia).
  assert (Hlo : (s + q * m <= e)%Z).
  { pose proof (Z.mul_div_le (e - s) m Hm). fold q in H. lia. }
  assert (Hhi : (e < s + (q + 1) * m)%Z).
  { pose proof (Z.mul_succ_div_gt (e - s) m Hm). fold q in H. lia. }
  set (n := Z.to_nat q) in *.
  assert (Hn : Z.of_nat n = q) by (apply Z2Nat.id; exact Hq0).
  assert (Hr : 0 < dyadic k m).
  { assert (H := proj1 (dyadic_lt k 0 m) Hm).
    unfold dyadic at 1 in H. unfold Qdiv in H. rewrite Qmult_0_l in H. exact H. }
  exists (arith (dyadic k s) (dyadic k m) (S n)).
  split; [|split; [|split; [|split; [|split; [|split]]]]].
  - apply generate_1d_grid_arith; try assumption; try lia.
    + rewrite iter_add_dyadic, Hn. apply dyadic_le. exact Hlo.
    + rewrite iter_add_dyadic, Nat2Z.inj_succ, Hn. apply dyadic_lt.
      unfold Z.succ. exact Hhi.
  - apply arith_length.
  - intros j Hj. rewrite arith_nth by lia. apply iter_add_dyadic.
  - now apply arith_sorted.
  - rewrite arith_snoc, last_last, iter_add_dyadic, Hn. reflexivity.
  - apply Forall_forall. intros x Hx.
    destruct (In_nth _ _ 0 Hx) as (j & Hj & <-).
    rewrite arith_length in Hj. rewrite arith_nth by exact Hj.
    rewrite iter_add_dyadic. apply dyadic_le. nia.
  - intros j Hj. nia.
Qed.

(** The half-degree grid from -180 to 180: numerators -360 to 360 over 2. *)
Lemma generate_1d_grid_exact_steps_half_degree :
  exists grid,
    generate_1d_grid 1000 (dyadic 1 (-360)) (dyadic 1 360) (dyadic 1 1) = Ret grid
    /\ List.length grid = S (Z.to_nat ((360 - -360) / 1))
    /\ (forall j, (j <= Z.to_nat ((360 - -360) / 1))%nat ->
                  nth j grid 0 == dyadic 1 (-360 + Z.of_nat j * 1))
    /\ StronglySorted Qlt grid
    /\ last grid 0 == dyadic 1 (-360 + (360 - -360) / 1 * 1)
    /\ Forall (fun x => x <= dyadic 1 360) grid
    /\ (forall j : nat, (-360 + Z.of_nat j * 1 <= 360)%Z ->
                        (j <= Z.to_nat ((360 - -360) / 1))%nat).
Proof.
  apply (generate_1d_grid_exact_steps (-360) 360 1 1 1000); try lia.
  vm_compute. lia.
Defined.

(** ** The bounding-box snap on exact grids *)

Lemma Qof_nat_nonneg (j : nat) : 0 <= Qof_nat j.
Proof.
  unfold Qof_nat. change 0 with (inject_Z 0). rewrite <- Zle_Qle. lia.
Qed.

Lemma Qof_nat_le (j k : nat) : (j <= k)%nat -> Qof_nat j <= Qof_nat k.
Proof.
  intro H. unfold Qof_nat. rewrite <- Zle_Qle. lia.
Qed.

Lemma Qof_nat_lt_inv (r : Q) (j k : nat) :
  0 < r -> Qof_nat j * r < Qof_nat k * r -> (j < k)%nat.
Proof.
  intros Hr H. destruct (Nat.lt_ge_cases j k) as [Hlt|Hge]; [exact Hlt|].
  pose proof (Qof_nat_le k j Hge). nra.
Qed.

Lemma steps_between_exact (a e r : Q) (j : nat) :
  0 < r -> a + Qof_nat j * r == e -> steps_between a e r = j.
Proof.
  intros Hr Hj.
  assert (Hae : a <= e) by (pose proof (Qof_nat_nonneg j); nra).
  destruct (steps_between_bounds a e r Hae Hr) as [Hlo Hhi].
  set (n := steps_between a e r) in *.
  apply Nat.le_antisymm.
  - apply Nat.lt_succ_r. apply (Qof_nat_lt_inv r); [exact Hr|].
    rewrite (Qof_nat_S j). pose proof (Qof_nat_nonneg j). nra.
  - apply Nat.lt_succ_r. apply (Qof_nat_lt_inv r); [exact Hr | lra].
Qed.

Lemma world_grid_shape (a e r : Q) (fuel : nat) (grid : list Q) :
  0 < r -> a <= e ->
  generate_1d_grid fuel a e r = Ret grid ->
  grid = arith a r (S (steps_between a e r))
  /\ a + Qof_nat (steps_between a e r) * r <= e
  /\ e < a + Qof_nat (S (steps_between a e r)) * r.
Proof.
  intros Hr Hae H.
  destruct (steps_between_bounds a e r Hae Hr) as [Hlo Hhi].
  split; [|split; assumption].
  destruct (generate_1d_grid_arith_or_out a e r (steps_between a e r) fuel Hr)
    as [E|E]; try (rewrite iter_add_closed; assumption); congruence.
Qed.

Lemma world_grid_last (a e r : Q) (fuel j : nat) (grid : list Q) :
  0 < r -> a <= e ->
  generate_1d_grid fuel a e r = Ret grid ->
  a + Qof_nat j * r == e ->
  last grid 0 == e.
Proof.
  intros Hr Hae H Hj.
  destruct (world_grid_shape a e r fuel grid Hr Hae H) as (-> & Hlo & Hhi).
  set (n := steps_between a e r) in *.
  rewrite arith_snoc, last_last, iter_add_closed.
  assert (Hnj : n = j).
  { apply Nat.le_antisymm.
    - apply Nat.lt_succ_r. apply (Qof_nat_lt_inv r); [exact Hr|].
      rewrite (Qof_nat_S j). pose proof (Qof_nat_nonneg j). nra.
    - apply Nat.lt_succ_r. apply (Qof_nat_lt_inv r); [exact Hr | lra]. }
  rewrite Hnj. exact Hj.
Qed.

(** On a grid that covers [a .. e] in steps of at most [(e + 1) / 2], a
    value of the range has a grid value within one step below it, which
    is closer than the initial [best_delta]. *)
Lemma snap_value_returns_in_range (a e r v : Q) (n : nat) :
  0 < r -> 2 * r <= e + 1 ->
  a + Qof_nat n * r <= e -> e < a + Qof_nat (S n) * r ->
  a <= v -> v <= e ->
  exists s, snap_value v (arith a r (S n)) = Ret s.
Proof.
  intros Hr Hsmall Hlo Hhi Hav Hve.
  destruct (py_max_nonempty (arith a r (S n))) as [m Em]; [discriminate|].
  destruct (py_max_spec _ _ Em) as [_ Hmax].
  assert (Htop : a + Qof_nat n * r <= m).
  { rewrite <- iter_add_closed. apply Hmax. apply arith_In_nth. lia. }
  destruct (steps_between_bounds a v r Hav Hr) as [Hklo Hkhi].
  set (k := steps_between a v r) in *.
  assert (Hk : (k < S n)%nat).
  { apply (Qof_nat_lt_inv r); [exact Hr | lra]. }
  apply (snap_value_returns v _ m (iter_add a r k) Em).
  - now apply arith_In_nth.
  - rewrite iter_add_closed. rewrite (Qof_nat_S k) in Hkhi. rewrite (Qof_nat_S n) in Hhi.
    rewrite Qabs_pos by lra. lra.
Qed.

Lemma enlarge_coordinate_returns (v : Q) (grid : list Q) (floor : bool) :
  (exists s, snap_value v grid = Ret s) ->
  exists x, enlarge_coordinate v grid floor = Ret x.
Proof.
  intros [s Es].
  destruct (enlarge_coordinate_outcomes_of v grid floor)
    as [(x & E & _)|[[Hnil _]|(_ & Es' & _)]].
  - eauto.
  - subst grid. unfold snap_value in Es. cbn [py_max bind] in Es. discriminate Es.
  - rewrite Es in Es'. discriminate Es'.
Qed.

Lemma snap_bbox_to_grid_returns_fine (r : Q) (fuel : nat) (b : BBox) :
  0 < r -> r <= 45 ->
  (steps_between (-180) 180 r + 2 <= fuel)%nat ->
  in_world b ->
  exists b', snap_bbox_to_grid fuel r b = Ret b'.
Proof.
  intros Hr Hfine Hfuel ((Hx0l & Hx0h) & (Hx1l & Hx1h) & (Hy0l & Hy0h) & (Hy1l & Hy1h)).
  destruct (steps_between_bounds (-180) 180 r ltac:(lra) Hr) as [Hxlo Hxhi].
  destruct (steps_between_bounds (-90) 90 r ltac:(lra) Hr) as [Hylo Hyhi].
  set (nx := steps_between (-180) 180 r) in *.
  set (ny := steps_between (-90) 90 r) in *.
  assert (Hny : (ny < S nx)%nat).
  { apply (Qof_nat_lt_inv r); [exact Hr | lra]. }
  assert (Ex : generate_1d_grid fuel (-180) 180 r = Ret (arith (-180) r (S nx))).
  { apply generate_1d_grid_arith; try assumption; try lia;
      rewrite iter_add_closed; assumption. }
  assert (Ey : generate_1d_grid fuel (-90) 90 r = Ret (arith (-90) r (S ny))).
  { apply generate_1d_grid_arith; try assumption; try lia;
      rewrite iter_add_closed; assumption. }
  unfold snap_bbox_to_grid. rewrite Ex, Ey. cbn [bind].
  assert (Sx : forall v, -180 <= v -> v <= 180 ->
                         exists s, snap_value v (arith (-180) r (S nx)) = Ret s).
  { intros v Hl Hh. apply (snap_value_returns_in_range (-180) 180 r v nx); lra. }
  assert (Sy : forall v, -90 <= v -> v <= 90 ->
                         exists s, snap_value v (arith (-90) r (S ny)) = Ret s).
  { intros v Hl Hh. apply (snap_value_returns_in_range (-90) 90 r v ny); lra. }
  destruct (enlarge_coordinate_returns (x0 b) _ true (Sx _ Hx0l Hx0h)) as [a1 E1].
  destruct (enlarge_coordinate_returns (y0 b) _ true (Sy _ Hy0l Hy0h)) as [a2 E2].
  destruct (enlarge_coordinate_returns (x1 b) _ false (Sx _ Hx1l Hx1h)) as [a3 E3].
  destruct (enlarge_coordinate_returns (y1 b) _ false (Sy _ Hy1l Hy1h)) as [a4 E4].
  rewrite E1, E2, E3, E4. cbn [bind]. eauto.
Qed.

(** C2, the claim as stated fails, in two ways.  With resolution 7 the
    longitude grid ends at 177 and the box (0, 0, 179, 0) is returned as
    (-5, -6, 177, 1), its right edge inside the requested one.  And on
    binary64 numbers the grids of resolution 2.4, of which 180 is a whole
    multiple, stop short of 180 and 90 because the additions round: the
    box (0, 0, 180, 90) is returned with its upper edges below 180 and
    90. *)
Lemma snap_bbox_to_grid_shrinks_upper_edges :
  (snap_bbox_to_grid 100 7 (mkBBox 0 0 179 0) = Ret (mkBBox (-5) (-6) 177 1)
   /\ (forall fuel b',
          snap_bbox_to_grid fuel 7 (mkBBox 0 0 179 0) = Ret b' ->
          ~ x1 (mkBBox 0 0 179 0) <= x1 b'))
  /\ PrimFloat.eqb (PrimFloat.mul 75 (tenths 24)) 180 = true
  /\ exists b',
      Float64.snap_bbox_to_grid 200 (tenths 24) (Float64.mkBBox 0 0 180 90) = Ret b'
      /\ PrimFloat.ltb (Float64.x1 b') 180 = true
      /\ PrimFloat.ltb (Float64.y1 b') 90 = true.
Proof.
  split; [exact snap_bbox_resolution_7_cuts_right_edge|].
  split; [vm_compute; reflexivity|].
  eexists. split; [vm_compute; reflexivity|].
  split; vm_compute; reflexivity.
Qed.

(** C2, amended.  For every resolution [r] that is an integer or a
    multiple [m / 2^k] of a power of two ([k <= 40], so that the grid
    values are computed without rounding) with [0 < r <= 45] or with 180
    a whole multiple of [r], and every box with x in [-180, 180] and y in
    [-90, 90], [snap_bbox_to_grid]
    returns (once the iteration budget covers the longitude grid) a box
    whose every edge is a value of its generated grid, with [x0' <= x0],
    [y0' <= y0], and [x1' >= x1] ([y1' >= y1]) provided [x1] ([y1]) does
    not exceed the last value of its grid; when 180 is a whole multiple
    of [r] the returned box contains the input box.  For [r = 0.5] and
    the input (10.3, 20.7, 15.1, 25.2) the result is
    (10.0, 20.5, 15.5, 25.5), also on binary64 numbers. *)
Theorem snap_bbox_to_grid_exact_grid :
  (forall (r : Q) (m : Z) (k fuel : nat) (b : BBox),
      r = dyadic k m -> (k <= 40)%nat ->
      0 < r -> (r <= 45 \/ exists j : nat, Qof_nat j * r == 180) ->
      (steps_between (-180) 180 r + 2 <= fuel)%nat ->
      in_world b ->
      exists b' x_grid y_grid,
        snap_bbox_to_grid fuel r b = Ret b'
        /\ generate_1d_grid fuel (-180) 180 r = Ret x_grid
        /\ generate_1d_grid fuel (-90) 90 r = Ret y_grid
        /\ on_grids b' x_grid y_grid
        /\ x0 b' <= x0 b /\ y0 b' <= y0 b
        /\ (x1 b <= last x_grid 0 -> x1 b <= x1 b')
        /\ (y1 b <= last y_grid 0 -> y1 b <= y1 b')
        /\ ((exists j : nat, Qof_nat j * r == 180) -> encloses b' b))
  /\ (forall fuel : nat,
         (722 <= fuel)%nat ->
         exists b',
           snap_bbox_to_grid fuel (1 # 2) sample_bbox = Ret b'
           /\ x0 b' == 10 /\ y0 b' == 41 # 2
           /\ x1 b' == 31 # 2 /\ y1 b' == 51 # 2)
  /\ Float64.snap_bbox_to_grid 722 0.5
       (Float64.mkBBox (tenths 103) (tenths 207) (tenths 151) (tenths 252))
     = Ret (Float64.mkBBox 10 20.5 15.5 25.5).
Proof.
  split; [|split; [exact (proj2 (proj2 snap_bbox_to_grid_encloses))
                  | vm_compute; reflexivity]].
  intros r m k fuel b _ _ Hr Hfine Hfuel Hw.
  assert (Hret : exists b', snap_bbox_to_grid fuel r b = Ret b').
  { destruct Hfine as [Hfine|[j Hj]].
    - now apply snap_bbox_to_grid_returns_fine.
    - apply (snap_bbox_to_grid_dividing_returns r j fuel b Hj); [|exact Hw].
      rewrite (steps_between_exact (-180) 180 r (2 * j) Hr) in Hfuel; [exact Hfuel|].
      unfold Qof_nat in *. rewrite Nat2Z.inj_mul, inject_Z_mult.
      change (inject_Z (Z.of_nat 2)) with 2. lra. }
  destruct Hret as [b' Eb].
  destruct (snap_bbox_to_grid_returned r fuel b b' Hr Hw Eb)
    as (gx & gy & Egx & Egy & Hon & C0 & C1 & C2 & C3).
  exists b', gx, gy.
  split; [exact Eb|]. split; [exact Egx|]. split; [exact Egy|].
  split; [exact Hon|]. split; [exact C0|]. split; [exact C1|].
  split; [exact C2|]. split; [exact C3|].
  intros [j Hj]. unfold encloses.
  split; [exact C0|]. split; [exact C1|]. split.
  - apply C2.
    rewrite (world_grid_last (-180) 180 r fuel (2 * j) gx Hr ltac:(lra) Egx).
    + destruct Hw as (_ & (_ & Hx1) & _). exact Hx1.
    + unfold Qof_nat in *. rewrite Nat2Z.inj_mul, inject_Z_mult.
      change (inject_Z (Z.of_nat 2)) with 2. lra.
  - apply C3.
    rewrite (world_grid_last (-90) 90 r fuel j gy Hr ltac:(lra) Egy).
    + destruct Hw as (_ & _ & _ & (_ & Hy1)). exact Hy1.
    + lra.
Qed.

(** Resolution 7 and the box (0, 0, 179, 0). *)
Lemma snap_bbox_to_grid_exact_grid_resolution_7 :
  exists b' x_grid y_grid,
    snap_bbox_to_grid 100 7 (mkBBox 0 0 179 0) = Ret b'
    /\ generate_1d_grid 100 (-180) 180 7 = Ret x_grid
    /\ generate_1d_grid 100 (-90) 90 7 = Ret y_grid
    /\ on_grids b' x_grid y_grid
    /\ x0 b' <= x0 (mkBBox 0 0 179 0) /\ y0 b' <= y0 (mkBBox 0 0 179 0)
    /\ (x1 (mkBBox 0 0 179 0) <= last x_grid 0 -> x1 (mkBBox 0 0 179 0) <= x1 b')
    /\ (y1 (mkBBox 0 0 179 0) <= last y_grid 0 -> y1 (mkBBox 0 0 179 0) <= y1 b')
    /\ ((exists j : nat, Qof_nat j * 7 == 180) -> encloses b' (mkBBox 0 0 179 0)).
Proof.
  apply (proj1 snap_bbox_to_grid_exact_grid 7 7%Z 0%nat 100%nat (mkBBox 0 0 179 0)).
  - reflexivity.
  - lia.
  - reflexivity.
  - left. vm_compute. discriminate.
  - vm_compute. lia.
  - unfold in_world. cbn [x0 y0 x1 y1]. repeat split; lra.
Defined.
